(** * The document generation endpoint (api/generate.js)

    A shallow embedding of the request handler that merges client details
    and a product list into the product-selection Word template, and the
    properties of it that the specification states.

    The handler is JavaScript: its input is whatever JSON the request body
    holds, so the embedding works on JSON values with JavaScript's
    truthiness, property lookup and string conversion written out.  The
    template engine, the archive library, the file system, the clock and
    the locale formatter are collaborators of the handler; they are
    gathered in a [World] the handler is run against.

    The form that posts to the endpoint (src/App.tsx) is embedded too, as
    far as it edits the product list and builds the request, so that the
    two can be stated together. *)

From Stdlib Require Import ZArith NArith Ascii String.
From stdpp Require Import base option list gmap strings.

Open Scope Z_scope.
Set Warnings "-register-all".

(** ** JavaScript strings *)

(** A JavaScript string is a sequence of UTF-16 code units. *)
Definition jsstring := list N.

(** The code units of an ASCII literal. *)
Definition lit (s : string) : jsstring :=
  N_of_ascii <$> list_ascii_of_string s.

(** [Array.prototype.join] on strings. *)
Fixpoint join (sep : jsstring) (parts : list jsstring) : jsstring :=
  match parts with
  | [] => []
  | [s] => s
  | s :: rest => s ++ sep ++ join sep rest
  end.

(** [String.prototype.toUpperCase] on the Basic Latin letters.  The handler
    applies it to the entries of [categoryOrder] only, which are ASCII. *)
Definition toUpperCase (s : jsstring) : jsstring :=
  (λ c, if (97 <=? c)%N && (c <=? 122)%N then (c - 32)%N else c) <$> s.

(** The class [\s] of a regular expression without the unicode flag:
    WhiteSpace and LineTerminator code points, all in the basic plane. *)
Definition isWhiteSpace (c : N) : bool :=
  ((9 <=? c) && (c <=? 13) || (c =? 32) || (c =? 160) || (c =? 5760)
   || (8192 <=? c) && (c <=? 8202) || (c =? 8232) || (c =? 8233)
   || (c =? 8239) || (c =? 8287) || (c =? 12288) || (c =? 65279))%N.

(** [s.replace(/\s+/g, '_')]: the scan is greedy, so every maximal run of
    white space becomes one underscore.  [in_run] tells that the previous
    code unit was white space and its underscore is already written. *)
Fixpoint replaceWhiteSpaceFrom (in_run : bool) (s : jsstring) : jsstring :=
  match s with
  | [] => []
  | c :: rest =>
      if isWhiteSpace c
      then (if in_run then [] else lit "_") ++ replaceWhiteSpaceFrom true rest
      else c :: replaceWhiteSpaceFrom false rest
  end.

Definition replaceWhiteSpace (s : jsstring) : jsstring :=
  replaceWhiteSpaceFrom false s.

(** ** JSON values as JavaScript sees them *)

(** A number parsed from JSON is an IEEE double.  The handler observes two
    things of it: whether it is zero (truthiness) and its rendering by
    Number::toString (as a property key), so a number is kept as these. *)
Record Number := { is_zero : bool; Number_toString : jsstring }.

(** The values [JSON.parse] builds, and [undefined] for what is absent.
    An object is the table of its own properties, each name once. *)
Inductive JSValue :=
| JUndefined
| JNull
| JBool (b : bool)
| JNum (n : Number)
| JStr (s : jsstring)
| JArr (elems : list JSValue)
| JObj (props : list (jsstring * JSValue)).

(** ToBoolean. *)
Definition toBoolean (v : JSValue) : bool :=
  match v with
  | JUndefined | JNull => false
  | JBool b => b
  | JNum n => negb (is_zero n)
  | JStr s => negb (bool_decide (s = []))
  | JArr _ | JObj _ => true
  end.

(** [a || b]. *)
Definition or_else (a b : JSValue) : JSValue :=
  if toBoolean a then a else b.

Definition isNullish (v : JSValue) : bool :=
  match v with JUndefined | JNull => true | _ => false end.

Fixpoint lookupProp (props : list (jsstring * JSValue)) (k : jsstring)
  : option JSValue :=
  match props with
  | [] => None
  | (k', v) :: rest => if bool_decide (k' = k) then Some v else lookupProp rest k
  end.

(** [v.k] for a value that is not nullish and a name [k] that no built-in
    prototype defines, as are all the names the handler reads (address,
    date, products, category, code, image, ...): the own property of an
    object, [undefined] otherwise. *)
Definition prop (v : JSValue) (k : string) : JSValue :=
  match v with
  | JObj props => default JUndefined (lookupProp props (lit k))
  | _ => JUndefined
  end.

(** ** Errors, responses and completions *)

(** What the runtime itself throws in this handler. *)
Inductive TypeErrorKind :=
| ReadOfNullish (name : string)     (* property read on null or undefined *)
| NotAFunction (callee : string)    (* call of a value that is no function *)
| NoPrimitiveValue                  (* object without a usable toString *)
| InvalidHeaderValue (name : jsstring). (* header value with a refused character *)

(** The text of an error: given by whoever raised it, or the wording the
    JavaScript engine has for one of its own TypeErrors. *)
Inductive Message :=
| Text (s : jsstring)
| EngineText (k : TypeErrorKind).

Record SubError := { sub_name : jsstring; sub_message : jsstring }.

(** A thrown error: [e.message] and [e.properties?.errors]. *)
Record Error := {
  message : Message;
  properties_errors : option (list SubError)
}.

Definition TypeError (k : TypeErrorKind) : Error :=
  {| message := EngineText k; properties_errors := None |}.

Definition Buffer := list N.

Inductive Body :=
| End
| Json (error : jsstring) (details : option Message)
| Send (buf : Buffer).

(** The response as the handler leaves it: the status, the headers in the
    order they were set, and the body. *)
Record Response := {
  status : Z;
  headers : list (jsstring * jsstring);
  body : Body
}.

(** How a piece of the handler's body ends: it goes on with a value, it
    returns a response, or it throws. *)
Inductive Completion (A : Type) :=
| Normal (a : A)
| Return (r : Response)
| Throw (e : Error).
Arguments Normal {A} a.
Arguments Return {A} r.
Arguments Throw {A} e.

#[global] Instance Completion_ret : MRet Completion := @Normal.
#[global] Instance Completion_bind : MBind Completion :=
  λ A B f c,
    match c with
    | Normal a => f a
    | Return r => Return r
    | Throw e => Throw e
    end.

(** [try { c } catch (err) { h err }]. *)
Definition try_catch {A} (c : Completion A) (h : Error → Completion A)
  : Completion A :=
  match c with
  | Throw e => h e
  | _ => c
  end.

(** A call into a collaborator: it yields a value or throws. *)
Definition call {A} (r : Error + A) : Completion A :=
  match r with
  | inl e => Throw e
  | inr a => Normal a
  end.

(** [v.k], with the TypeError on a nullish [v]. *)
Definition get (v : JSValue) (k : string) : Completion JSValue :=
  if isNullish v then Throw (TypeError (ReadOfNullish k)) else Normal (prop v k).

(** ToString, as far as JSON values go.  An array is joined with commas,
    null and undefined elements giving the empty string.  An object gives
    "[object Object]" through Object.prototype.toString, unless an own
    property "toString" hides that method: a JSON value is never callable
    and Object.prototype.valueOf returns the object, so no primitive is
    found and the conversion throws. *)
Fixpoint ToString (v : JSValue) : Error + jsstring :=
  match v with
  | JUndefined => inr (lit "undefined")
  | JNull => inr (lit "null")
  | JBool b => inr (if b then lit "true" else lit "false")
  | JNum n => inr (Number_toString n)
  | JStr s => inr s
  | JArr elems =>
      let fix strings (l : list JSValue) : Error + list jsstring :=
        match l with
        | [] => inr []
        | e :: rest =>
            match (if isNullish e then inr [] else ToString e) with
            | inl err => inl err
            | inr s =>
                match strings rest with
                | inl err => inl err
                | inr ss => inr (s :: ss)
                end
            end
        end in
      match strings elems with
      | inl err => inl err
      | inr parts => inr (join (lit ",") parts)
      end
  | JObj props =>
      match lookupProp props (lit "toString") with
      | Some _ => inl (TypeError NoPrimitiveValue)
      | None => inr (lit "[object Object]")
      end
  end.

(** ToPropertyKey of a JSON value (no symbols there). *)
Definition ToPropertyKey (v : JSValue) : Completion jsstring :=
  call (ToString v).

(** ** The data handed to the template engine *)

(** One row of a category's product table, under the hyphenated names of
    the template's placeholders. *)
Record ProductRow := {
  code : JSValue;
  description : JSValue;
  manufacturer_description : JSValue;
  product_details : JSValue;
  area_description : JSValue;
  quantity : JSValue;
  price : JSValue;
  notes : JSValue;
  image : JSValue
}.

Record CategoryGroup := {
  category_name : jsstring;
  products : list ProductRow
}.

Record MergeData := {
  address : JSValue;
  date : jsstring;
  contact_name : JSValue;
  company : JSValue;
  phone_number : JSValue;
  email : JSValue;
  categories : list CategoryGroup
}.

(** The configuration of the image module. *)
Record ImageModule := {
  centered : bool;
  getImage : JSValue → Completion Buffer;
  getSize : Buffer → JSValue → jsstring → Z * Z
}.

(** The options of the template engine; [modules] is set or left out. *)
Record Options := {
  paragraphLoop : bool;
  linebreaks : bool;
  delimiters : jsstring * jsstring;
  modules : option (list ImageModule)
}.

(** ** The collaborators *)

(** The two places the template is looked for. *)
Inductive TemplatePath :=
| InTemplatesDir     (* path.join(__dirname, 'templates', templateName) *)
| InPublicDir.       (* path.join(process.cwd(), 'public', templateName) *)

(** What the handler calls and does not define: the module loader, the
    file system, pizzip, docxtemplater, Date and Buffer.  A call yields a
    value ([inr]) or throws ([inl]).  A time value is [None] when it is NaN. *)
Record World := {
  Zip : Type;
  Doc : Type;
  import_modules : Error + unit;
  existsSync : TemplatePath → bool;
  readFileSync : TemplatePath → Error + Buffer;
  PizZip_new : Buffer → Error + Zip;
  Date_new : JSValue → Error + option Z;
  Date_now : Z;
  format_en_AU : Z → jsstring;
  Buffer_from_base64 : JSValue → Error + Buffer;
  Docxtemplater_new : Zip → Options → Error + Doc;
  setData : Doc → MergeData → Error + Doc;
  render : Doc → Error + Doc;
  generate : Doc → Error + Buffer
}.

(** ** Grouping the products *)

Definition categoryOrder : list jsstring :=
  [lit "Kitchen"; lit "Bathroom"; lit "Bedroom"; lit "Living Room";
   lit "Laundry"; lit "Balcony"; lit "Other"].

(** The names every plain object inherits from Object.prototype. *)
Definition Object_prototype_keys : list jsstring :=
  [lit "constructor"; lit "__proto__"; lit "hasOwnProperty";
   lit "isPrototypeOf"; lit "propertyIsEnumerable"; lit "toLocaleString";
   lit "toString"; lit "valueOf"; lit "__defineGetter__";
   lit "__defineSetter__"; lit "__lookupGetter__"; lit "__lookupSetter__"].

(** What [productsByCategory[cat]] evaluates to: an array the loop has
    stored, a member inherited from Object.prototype, or undefined. *)
Inductive Member :=
| OwnArray (rows : list ProductRow)
| Inherited
| Missing.

Definition member (o : gmap jsstring (list ProductRow)) (k : jsstring) : Member :=
  match o !! k with
  | Some rows => OwnArray rows
  | None => if bool_decide (k ∈ Object_prototype_keys) then Inherited else Missing
  end.

(** The object literal of lines 88 to 98. *)
Definition productRow (p : JSValue) : ProductRow :=
  {| code := or_else (prop p "code") (JStr []);
     description := or_else (prop p "description") (JStr []);
     manufacturer_description := or_else (prop p "manufacturerDescription") (JStr []);
     product_details := or_else (prop p "productDetails") (JStr []);
     area_description := or_else (prop p "areaDescription") (JStr []);
     quantity := or_else (prop p "quantity") (JStr []);
     price := or_else (prop p "price") (JStr []);
     notes := or_else (prop p "notes") (JStr []);
     image := or_else (prop p "image") (JStr []) |}.

(** [p.category || 'Other'], as the property key it is used as. *)
Definition categoryKey (p : JSValue) : Completion jsstring :=
  c ← get p "category";
  ToPropertyKey (or_else c (JStr (lit "Other"))).

(** One turn of the loop over the products.  Functions and
    Object.prototype are truthy and have no [push]. *)
Definition groupProduct (o : gmap jsstring (list ProductRow)) (p : JSValue)
  : Completion (gmap jsstring (list ProductRow)) :=
  cat ← categoryKey p;
  let o1 := match member o cat with
            | Missing => <[cat := []]> o
            | _ => o
            end in
  match member o1 cat with
  | OwnArray rows => Normal (<[cat := rows ++ [productRow p]]> o1)
  | _ => Throw (TypeError (NotAFunction "productsByCategory[cat].push"))
  end.

Fixpoint groupProducts (o : gmap jsstring (list ProductRow)) (ps : list JSValue)
  : Completion (gmap jsstring (list ProductRow)) :=
  match ps with
  | [] => Normal o
  | p :: rest => o' ← groupProduct o p; groupProducts o' rest
  end.

(** [productsByCategory[cat]?.length > 0] for a name of [categoryOrder];
    none of these names is inherited. *)
Definition hasProducts (o : gmap jsstring (list ProductRow)) (cat : jsstring) : bool :=
  match o !! cat with
  | Some rows => bool_decide (0 < length rows)%nat
  | None => false
  end.

Definition categoriesData (o : gmap jsstring (list ProductRow)) : list CategoryGroup :=
  (λ cat, {| category_name := toUpperCase cat;
             products := default [] (o !! cat) |})
    <$> List.filter (hasProducts o) categoryOrder.

(** Lines 82 to 106: from the products to the category groups. *)
Definition groupByCategory (ps : list JSValue) : Completion (list CategoryGroup) :=
  o ← groupProducts ∅ ps; Normal (categoriesData o).

(** ** The handler *)

Record Request := {
  method : jsstring;
  req_body : JSValue     (* [JUndefined] when the request has no body *)
}.

(** The three headers set before anything else (lines 8 to 10). *)
Definition cors : list (jsstring * jsstring) :=
  [(lit "Access-Control-Allow-Origin", lit "*");
   (lit "Access-Control-Allow-Methods", lit "POST,OPTIONS");
   (lit "Access-Control-Allow-Headers", lit "Content-Type")].

Definition respond (st : Z) (set_later : list (jsstring * jsstring)) (b : Body)
  : Response :=
  {| status := st; headers := cors ++ set_later; body := b |}.

(** [return res.status(st).json({ error, details })] inside the try block,
    where no further header has been set yet. *)
Definition fail {A} (st : Z) (error : string) (details : option Message)
  : Completion A :=
  Return (respond st [] (Json (lit error) details)).

Definition docx_mime : jsstring :=
  lit "application/vnd.openxmlformats-officedocument.wordprocessingml.document".

Definition content_type : jsstring * jsstring := (lit "Content-Type", docx_mime).

Definition dquote : jsstring := [34%N].

(** The header of line 136, for the address already rewritten. *)
Definition content_disposition (name : jsstring) : jsstring * jsstring :=
  (lit "Content-Disposition",
   lit "attachment; filename=" ++ dquote ++ lit "Product_Selection_" ++ name
     ++ lit ".docx" ++ dquote).

(** The code units [res.setHeader] accepts in a header value: the tab,
    0x20 to 0x7e and 0x80 to 0xff. *)
Definition validHeaderChar (c : N) : bool :=
  ((c =? 9) || (32 <=? c) && (c <=? 126) || (128 <=? c) && (c <=? 255))%N.

(** [res.setHeader(name, value)]: the header as it is set, or the
    TypeError for a value with a character that is not accepted.  The
    values of the other headers the handler sets are constants made of
    accepted characters. *)
Definition setHeader (header : jsstring * jsstring)
  : Completion (jsstring * jsstring) :=
  if forallb validHeaderChar header.2 then Normal header
  else Throw (TypeError (InvalidHeaderValue header.1)).

(** [req.body || {}], the value line 16 takes the fields from. *)
Definition requestBody (req : Request) : JSValue :=
  or_else (req_body req) (JObj []).

Definition isArray (v : JSValue) : bool :=
  match v with JArr _ => true | _ => false end.

Definition elements (v : JSValue) : list JSValue :=
  match v with JArr l => l | _ => [] end.

(** [address.replace(/\s+/g, '_')]: only a string has the method. *)
Definition replace_in (address : JSValue) : Completion jsstring :=
  match address with
  | JStr s => Normal (replaceWhiteSpace s)
  | _ => Throw (TypeError (NotAFunction "address.replace"))
  end.

(** [products.some(p => p.image)]: stops at the first truthy image. *)
Fixpoint hasImages (ps : list JSValue) : Completion bool :=
  match ps with
  | [] => Normal false
  | p :: rest =>
      img ← get p "image";
      if toBoolean img then Normal true else hasImages rest
  end.

(** The sub-errors of a failed render, as line 126 writes them. *)
Definition describe (errs : list SubError) : jsstring :=
  join (lit "; ") ((λ e, sub_name e ++ lit ": " ++ sub_message e) <$> errs).

Section Handler.
Context (w : World).

(** [d.toLocaleDateString('en-AU', { year, month, day })]: the text
    "Invalid Date" for a NaN time value, the long date otherwise. *)
Definition toLocaleDateString (t : option Z) : jsstring :=
  match t with
  | None => lit "Invalid Date"
  | Some ms => format_en_AU w ms
  end.

(** Lines 53 to 57. *)
Definition formattedDate (date : JSValue) : Completion jsstring :=
  if toBoolean date
  then t ← call (Date_new w date); Normal (toLocaleDateString t)
  else Normal (toLocaleDateString (Some (Date_now w))).

(** Lines 61 to 65. *)
Definition imageModule : ImageModule :=
  {| centered := false;
     getImage := λ tagValue,
       if toBoolean tagValue then call (Buffer_from_base64 w tagValue)
       else Normal [];
     getSize := λ _ _ _, (132, 132) |}.

(** Lines 70 to 75. *)
Definition engineOptions (has_images : bool) : Options :=
  {| paragraphLoop := true;
     linebreaks := true;
     delimiters := (lit "{{", lit "}}");
     modules := if has_images then Some [imageModule] else None |}.

(** Lines 33 to 41. *)
Definition locateTemplate : Completion TemplatePath :=
  if existsSync w InTemplatesDir then Normal InTemplatesDir
  else if existsSync w InPublicDir then Normal InPublicDir
  else fail 500 "Template file not found" None.

(** Lines 16 to 117: everything before the merge is invoked.  It yields
    the address, the engine instance and the data that were set on it. *)
Definition prepare (req : Request)
  : Completion (JSValue * Doc w * MergeData) :=
  let body := requestBody req in
  let address := prop body "address" in
  let products := prop body "products" in
  if negb (toBoolean address) then fail 400 "Address is required" None
  else if negb (toBoolean products) || negb (isArray products)
          || bool_decide (length (elements products) = 0%nat)
  then fail 400 "At least one product is required" None
  else
    _ ← call (import_modules w);
    templatePath ← locateTemplate;
    content ← call (readFileSync w templatePath);
    zip ← try_catch (call (PizZip_new w content))
          (λ err, fail 500 "Template file is corrupted" (Some (message err)));
    date ← formattedDate (prop body "date");
    has_images ← hasImages (elements products);
    doc ← try_catch (call (Docxtemplater_new w zip (engineOptions has_images)))
          (λ err, fail 500 "Template structure invalid" (Some (message err)));
    categoriesData ← groupByCategory (elements products);
    let data := {| address := address;
                   date := date;
                   contact_name := or_else (prop body "contactName") (JStr []);
                   company := or_else (prop body "company") (JStr []);
                   phone_number := or_else (prop body "phoneNumber") (JStr []);
                   email := or_else (prop body "email") (JStr []);
                   categories := categoriesData |} in
    doc ← call (setData w doc data);
    Normal (address, doc, data).

(** Lines 120 to 130. *)
Definition renderDocument (doc : Doc w) : Completion (Doc w) :=
  try_catch (call (render w doc))
    (λ err,
       match properties_errors err with
       | Some errs => fail 500 "Template rendering failed" (Some (Text (describe errs)))
       | None => fail 500 "Render failed" (Some (message err))
       end).

(** Lines 16 to 133: up to the bytes of the merged document. *)
Definition produce (req : Request) : Completion (JSValue * Buffer) :=
  '(address, doc, data) ← prepare req;
  merged ← renderDocument doc;
  buf ← call (generate w merged);
  Normal (address, buf).

(** Lines 135 to 138.  The content type is set before the file name is
    computed, so it stays set when that computation or the setting of the
    content disposition throws. *)
Definition deliver (address : JSValue) (buf : Buffer) : Completion Response :=
  name ← replace_in address;
  header ← setHeader (content_disposition name);
  Return (respond 200 [content_type; header] (Send buf)).

(** The catch of line 139, with the headers set in the try block so far. *)
Definition failed (set_so_far : list (jsstring * jsstring)) (e : Error) : Response :=
  respond 500 set_so_far (Json (lit "Failed to generate document") (Some (message e))).

Definition handler (req : Request) : Response :=
  if bool_decide (method req = lit "OPTIONS") then respond 200 [] End
  else if negb (bool_decide (method req = lit "POST"))
  then respond 405 [] (Json (lit "Method not allowed") None)
  else
    match produce req with
    | Return r => r
    | Throw e => failed [] e
    | Normal (address, buf) =>
        match deliver address buf with
        | Normal r | Return r => r
        | Throw e => failed [content_type] e
        end
    end.

End Handler.

(** ** Sample inputs *)

(** Base64 for the sample world: the value of a character of either
    alphabet, the values up to the first padding character with everything
    else skipped, and their bytes. *)
Definition base64Value (c : N) : option N :=
  if ((65 <=? c) && (c <=? 90))%N then Some (c - 65)%N
  else if ((97 <=? c) && (c <=? 122))%N then Some (c - 71)%N
  else if ((48 <=? c) && (c <=? 57))%N then Some (c + 4)%N
  else if ((c =? 43) || (c =? 45))%N then Some 62%N
  else if ((c =? 47) || (c =? 95))%N then Some 63%N
  else None.

Fixpoint base64Values (s : jsstring) : list N :=
  match s with
  | [] => []
  | c :: rest =>
      if (c =? 61)%N then []
      else match base64Value c with
           | Some v => v :: base64Values rest
           | None => base64Values rest
           end
  end.

Fixpoint base64Bytes (values : list N) : Buffer :=
  match values with
  | a :: b :: c :: d :: rest =>
      [a * 4 + b / 16; (b mod 16) * 16 + c / 4; (c mod 4) * 64 + d]%N
        ++ base64Bytes rest
  | [a; b; c] => [a * 4 + b / 16; (b mod 16) * 16 + c / 4]%N
  | [a; b] => [a * 4 + b / 16]%N
  | _ => []
  end.

(** A world where every collaborator succeeds; [rendering] is what the
    merge does.  Its clock stands at 2 November 2026, and its decoder
    takes string payloads. *)
Definition worldWith (rendering : Error + unit) : World :=
  {| Zip := Buffer;
     Doc := unit;
     import_modules := inr ();
     existsSync := λ _, true;
     readFileSync := λ _, inr [80; 75; 3; 4]%N;
     PizZip_new := λ content, inr content;
     Date_new := λ v,
       match v with
       | JStr s => inr (if bool_decide (s = lit "2025-03-04")
                        then Some 1741046400000 else None)
       | _ => inr None
       end;
     Date_now := 1793577600000;
     format_en_AU := λ ms, if bool_decide (ms = 1741046400000)
                           then lit "4 March 2025" else lit "2 November 2026";
     Buffer_from_base64 := λ v,
       match v with
       | JStr s => inr (base64Bytes (base64Values s))
       | _ => inl {| message := Text (lit "The first argument must be of type string");
                     properties_errors := None |}
       end;
     Docxtemplater_new := λ _ _, inr ();
     setData := λ _ _, inr ();
     render := λ _, rendering;
     generate := λ _, inr [80; 75; 5; 6]%N |}.

Definition sampleWorld : World := worldWith (inr ()).

(** An error of the engine with two sub-errors. *)
Definition unclosed_and_unopened : Error :=
  {| message := Text (lit "Multi error");
     properties_errors :=
       Some [ {| sub_name := lit "TemplateError"; sub_message := lit "Unclosed tag" |};
              {| sub_name := lit "TemplateError"; sub_message := lit "Unopened loop" |} ] |}.

Definition product (category code : string) : JSValue :=
  JObj [(lit "category", JStr (lit category)); (lit "code", JStr (lit code))].

Definition post (fields : list (jsstring * JSValue)) : Request :=
  {| method := lit "POST"; req_body := JObj fields |}.

(** A world without the template. *)
Definition templatelessWorld : World :=
  {| Zip := Buffer;
     Doc := unit;
     import_modules := inr ();
     existsSync := λ _, false;
     readFileSync := λ _, inr [];
     PizZip_new := λ content, inr content;
     Date_new := λ _, inr None;
     Date_now := 0;
     format_en_AU := λ _, [];
     Buffer_from_base64 := λ _, inr [];
     Docxtemplater_new := λ _ _, inr ();
     setData := λ _ _, inr ();
     render := λ _, inr ();
     generate := λ _, inr [] |}.

(** A world whose template is no archive. *)
Definition no_central_directory : Error :=
  {| message := Text (lit "Can't find end of central directory");
     properties_errors := None |}.

Definition corruptWorld : World :=
  {| Zip := Buffer;
     Doc := unit;
     import_modules := inr ();
     existsSync := λ path, match path with InTemplatesDir => false | InPublicDir => true end;
     readFileSync := λ _, inr [0; 1]%N;
     PizZip_new := λ _, inl no_central_directory;
     Date_new := λ _, inr None;
     Date_now := 0;
     format_en_AU := λ _, [];
     Buffer_from_base64 := λ _, inr [];
     Docxtemplater_new := λ _ _, inr ();
     setData := λ _ _, inr ();
     render := λ _, inr ();
     generate := λ _, inr [] |}.

(** A world whose template has malformed tags. *)
Definition malformedWorld : World :=
  {| Zip := Buffer;
     Doc := unit;
     import_modules := inr ();
     existsSync := λ _, true;
     readFileSync := λ _, inr [80; 75]%N;
     PizZip_new := λ content, inr content;
     Date_new := λ _, inr None;
     Date_now := 0;
     format_en_AU := λ _, [];
     Buffer_from_base64 := λ _, inr [];
     Docxtemplater_new := λ _ _, inl unclosed_and_unopened;
     setData := λ _ _, inr ();
     render := λ _, inr ();
     generate := λ _, inr [] |}.

(** ** The vocabulary of the specification *)

(** The two validation failures. *)
Definition address_required : Response :=
  respond 400 [] (Json (lit "Address is required") None).

Definition products_required : Response :=
  respond 400 [] (Json (lit "At least one product is required") None).

(** [p] is grouped under the key [k]. *)
Definition keyed (k : jsstring) (p : JSValue) : bool :=
  match categoryKey p with
  | Normal k' => bool_decide (k' = k)
  | _ => false
  end.

(** The rows of the products grouped under [k], in input order. *)
Definition rowsFor (k : jsstring) (ps : list JSValue) : list ProductRow :=
  productRow <$> List.filter (keyed k) ps.

(** The groups as the specification describes them: the categories in
    their fixed order, those without a product left out, each with the
    rows of its products in input order. *)
Definition groupsInFixedOrder (ps : list JSValue) : list CategoryGroup :=
  (λ cat, {| category_name := toUpperCase cat; products := rowsFor cat ps |})
    <$> List.filter (λ cat, existsb (keyed cat) ps) categoryOrder.

(** A product the loop can store: its category key can be computed and
    does not name a member of Object.prototype. *)
Definition groupable (p : JSValue) : Prop :=
  ∃ k, categoryKey p = Normal k ∧ k ∉ Object_prototype_keys.

(** The rows stored under [k]. *)
Definition bucket (o : gmap jsstring (list ProductRow)) (k : jsstring)
  : list ProductRow :=
  default [] (o !! k).

(** The row of [p] stands in a group with the given heading. *)
Definition emitted_under (heading : jsstring) (p : JSValue)
    (groups : list CategoryGroup) : Prop :=
  ∃ g, g ∈ groups ∧ category_name g = heading ∧ productRow p ∈ products g.

(** Buckets that agree everywhere but at the key [s]. *)
Definition agree_off (s : jsstring)
    (c1 c2 : Completion (gmap jsstring (list ProductRow))) : Prop :=
  match c1, c2 with
  | Normal o1, Normal o2 => ∀ k, k ≠ s → o1 !! k = o2 !! k
  | Return r1, Return r2 => r1 = r2
  | Throw e1, Throw e2 => e1 = e2
  | _, _ => False
  end.

(** A field that is not there: undefined, or JSON's null. *)
Definition absent (v : JSValue) : Prop := isNullish v = true.

(** The specification's wording of the file name, taken literally: every
    space of the address replaced by an underscore. *)
Definition spacesToUnderscores (s : jsstring) : jsstring :=
  (λ c, if (c =? 32)%N then 95%N else c) <$> s.

(** The header value of a download named Product_Selection__.docx. *)
Definition underscore_only_disposition : jsstring :=
  lit "attachment; filename=" ++ dquote ++ lit "Product_Selection__.docx" ++ dquote.

(** ** Further vocabulary *)

(** An answer [res.status(st).json(...)] given before any header beyond
    the first three is set. *)
Definition is_failure (st : Z) (r : Response) : Prop :=
  ∃ error details, r = respond st [] (Json error details).

(** The test of line 22 on the products field. *)
Definition productsMissing (products : JSValue) : bool :=
  negb (toBoolean products) || negb (isArray products)
  || bool_decide (length (elements products) = 0%nat).

(** [p] is grouped under one of the seven listed categories. *)
Definition listed (p : JSValue) : bool :=
  existsb (λ cat, keyed cat p) categoryOrder.

(** The white space of [s] is made of single U+0020 spaces, no two of
    them next to each other. *)
Fixpoint singleSpacesFrom (after_space : bool) (s : jsstring) : bool :=
  match s with
  | [] => true
  | c :: rest =>
      if isWhiteSpace c
      then (c =? 32)%N && negb after_space && singleSpacesFrom true rest
      else singleSpacesFrom false rest
  end.

Definition singleSpaces (s : jsstring) : bool := singleSpacesFrom false s.

(** ** The form that calls the handler (src/App.tsx) *)

(** [String.prototype.trim]: white space and line terminators are taken
    off both ends; they are the code units of the class [\s]. *)
Fixpoint trimStart (s : jsstring) : jsstring :=
  match s with
  | [] => []
  | c :: rest => if isWhiteSpace c then trimStart rest else s
  end.

Definition trim (s : jsstring) : jsstring :=
  reverse (trimStart (reverse (trimStart s))).

Module App.

(** The type [Category]: the entries of [CATEGORIES]. *)
Inductive Category :=
| Kitchen | Bathroom | Bedroom | LivingRoom | Laundry | Balcony | Other.

#[global] Instance Category_eq_dec : EqDecision Category.
Proof. solve_decision. Defined.

Definition CATEGORIES : list Category :=
  [Kitchen; Bathroom; Bedroom; LivingRoom; Laundry; Balcony; Other].

(** The string a category is. *)
Definition label (c : Category) : jsstring :=
  match c with
  | Kitchen => lit "Kitchen"
  | Bathroom => lit "Bathroom"
  | Bedroom => lit "Bedroom"
  | LivingRoom => lit "Living Room"
  | Laundry => lit "Laundry"
  | Balcony => lit "Balcony"
  | Other => lit "Other"
  end.

(** The interface [Product]; [None] is null. *)
Record Product := {
  id : jsstring;
  category : Category;
  code : jsstring;
  description : jsstring;
  manufacturerDescription : jsstring;
  productDetails : jsstring;
  areaDescription : jsstring;
  quantity : jsstring;
  price : jsstring;
  notes : jsstring;
  image : option jsstring;
  imagePreview : option jsstring
}.

(** [emptyProduct()], for the identifier [crypto.randomUUID()] returns. *)
Definition emptyProduct (uuid : jsstring) : Product :=
  {| id := uuid; category := Bathroom; code := []; description := [];
     manufacturerDescription := []; productDetails := []; areaDescription := [];
     quantity := []; price := []; notes := [];
     image := None; imagePreview := None |}.

(** A field with its new value, as the form passes them to
    [updateProduct]: the chosen option of the select, the text of an
    input, or null for the image and its preview. *)
Inductive Change :=
| SetCategory (c : Category)
| SetCode (s : jsstring)
| SetDescription (s : jsstring)
| SetManufacturerDescription (s : jsstring)
| SetProductDetails (s : jsstring)
| SetAreaDescription (s : jsstring)
| SetQuantity (s : jsstring)
| SetPrice (s : jsstring)
| SetNotes (s : jsstring)
| SetImage (v : option jsstring)
| SetImagePreview (v : option jsstring).

(** [{ ...p, [field]: value }]. *)
Definition with_change (p : Product) (ch : Change) : Product :=
  let '{| id := i; category := c; code := co; description := d;
          manufacturerDescription := m; productDetails := pd;
          areaDescription := a; quantity := q; price := pr; notes := n;
          image := im; imagePreview := ip |} := p in
  match ch with
  | SetCategory v => {| id := i; category := v; code := co; description := d;
      manufacturerDescription := m; productDetails := pd; areaDescription := a;
      quantity := q; price := pr; notes := n; image := im; imagePreview := ip |}
  | SetCode v => {| id := i; category := c; code := v; description := d;
      manufacturerDescription := m; productDetails := pd; areaDescription := a;
      quantity := q; price := pr; notes := n; image := im; imagePreview := ip |}
  | SetDescription v => {| id := i; category := c; code := co; description := v;
      manufacturerDescription := m; productDetails := pd; areaDescription := a;
      quantity := q; price := pr; notes := n; image := im; imagePreview := ip |}
  | SetManufacturerDescription v => {| id := i; category := c; code := co;
      description := d; manufacturerDescription := v; productDetails := pd;
      areaDescription := a; quantity := q; price := pr; notes := n;
      image := im; imagePreview := ip |}
  | SetProductDetails v => {| id := i; category := c; code := co; description := d;
      manufacturerDescription := m; productDetails := v; areaDescription := a;
      quantity := q; price := pr; notes := n; image := im; imagePreview := ip |}
  | SetAreaDescription v => {| id := i; category := c; code := co; description := d;
      manufacturerDescription := m; productDetails := pd; areaDescription := v;
      quantity := q; price := pr; notes := n; image := im; imagePreview := ip |}
  | SetQuantity v => {| id := i; category := c; code := co; description := d;
      manufacturerDescription := m; productDetails := pd; areaDescription := a;
      quantity := v; price := pr; notes := n; image := im; imagePreview := ip |}
  | SetPrice v => {| id := i; category := c; code := co; description := d;
      manufacturerDescription := m; productDetails := pd; areaDescription := a;
      quantity := q; price := v; notes := n; image := im; imagePreview := ip |}
  | SetNotes v => {| id := i; category := c; code := co; description := d;
      manufacturerDescription := m; productDetails := pd; areaDescription := a;
      quantity := q; price := pr; notes := v; image := im; imagePreview := ip |}
  | SetImage v => {| id := i; category := c; code := co; description := d;
      manufacturerDescription := m; productDetails := pd; areaDescription := a;
      quantity := q; price := pr; notes := n; image := v; imagePreview := ip |}
  | SetImagePreview v => {| id := i; category := c; code := co; description := d;
      manufacturerDescription := m; productDetails := pd; areaDescription := a;
      quantity := q; price := pr; notes := n; image := im; imagePreview := v |}
  end.

(** The message shown above the form. *)
Inductive Notice :=
| Success (text : jsstring)
| Failure (text : jsstring).

(** What a handler of the product list leaves: the list given to
    [setProducts], or the message given to [setMessage]. *)
Inductive Edit :=
| SetProducts (products : list Product)
| SetMessage (notice : Notice).

(** [addProduct], for the products of the current render. *)
Definition addProduct (products : list Product) (uuid : jsstring) : Edit :=
  if bool_decide (50 ≤ length products)%nat
  then SetMessage (Failure (lit "Maximum 50 products allowed"))
  else SetProducts (products ++ [emptyProduct uuid]).

(** [removeProduct]. *)
Definition removeProduct (products : list Product) (i : jsstring) : Edit :=
  if bool_decide (length products ≤ 1)%nat
  then SetMessage (Failure (lit "At least one product required"))
  else SetProducts (List.filter (λ p, negb (bool_decide (id p = i))) products).

(** [updateProduct]: the list it gives to [setProducts]. *)
Definition updateProduct (products : list Product) (i : jsstring) (ch : Change)
  : list Product :=
  (λ p, if bool_decide (id p = i) then with_change p ch else p) <$> products.

(** The products after an edit of the list [products]. *)
Definition after (products : list Product) (e : Edit) : list Product :=
  match e with
  | SetProducts products' => products'
  | SetMessage _ => products
  end.

(** The click on the cross of an image preview calls [updateProduct]
    twice.  Both calls map the products of the render the click happened
    in, and the list of the second [setProducts] replaces that of the
    first. *)
Definition removeImage (products : list Product) (i : jsstring) : list Product :=
  let first := updateProduct products i (SetImage None) in
  let second := updateProduct products i (SetImagePreview None) in
  after (after products (SetProducts first)) (SetProducts second).

(** The fields of the form. *)
Record Form := {
  address : jsstring;
  date : jsstring;
  contactName : jsstring;
  company : jsstring;
  phoneNumber : jsstring;
  email : jsstring;
  products : list Product
}.

(** [p.code.trim() || p.description.trim()], as a truth value. *)
Definition isValid (p : Product) : bool :=
  negb (bool_decide (trim (code p) = []))
  || negb (bool_decide (trim (description p) = [])).

(** An entry of [payload.products] (lines 108 to 119), as JSON. *)
Definition productJson (p : Product) : JSValue :=
  JObj [(lit "category", JStr (label (category p)));
        (lit "code", JStr (code p));
        (lit "description", JStr (description p));
        (lit "manufacturerDescription", JStr (manufacturerDescription p));
        (lit "productDetails", JStr (productDetails p));
        (lit "areaDescription", JStr (areaDescription p));
        (lit "quantity", JStr (quantity p));
        (lit "price", JStr (price p));
        (lit "notes", JStr (notes p));
        (lit "image", match image p with Some data => JStr data | None => JNull end)].

(** [payload] (lines 101 to 120), as JSON. *)
Definition payload (f : Form) (validProducts : list Product) : JSValue :=
  JObj [(lit "address", JStr (trim (address f)));
        (lit "date", JStr (date f));
        (lit "contactName", JStr (trim (contactName f)));
        (lit "company", JStr (trim (company f)));
        (lit "phoneNumber", JStr (trim (phoneNumber f)));
        (lit "email", JStr (trim (email f)));
        (lit "products", JArr (productJson <$> validProducts))].

(** What [generateDocument] does with the form: it shows a message and
    stops, or posts a request to the handler. *)
Inductive Submission :=
| Refused (notice : Notice)
| Posted (req : Request).

(** [generateDocument], up to the call of [fetch] (lines 85 to 126). *)
Definition generateDocument (f : Form) : Submission :=
  if bool_decide (trim (address f) = [])
  then Refused (Failure (lit "Address is required"))
  else
    let validProducts := List.filter isValid (products f) in
    if bool_decide (length validProducts = 0%nat)
    then Refused (Failure (lit "At least one product with code or description required"))
    else Posted {| method := lit "POST"; req_body := payload f validProducts |}.

(** The summary under the form (lines 152 to 156 and 295 to 297): for the
    categories in the order of [CATEGORIES], those with products, and
    their products. *)
Definition productsByCategory (products : list Product)
  : list (Category * list Product) :=
  (λ cat, (cat, List.filter (λ p, bool_decide (category p = cat)) products))
    <$> List.filter
          (λ cat, bool_decide
                    (0 < length (List.filter (λ p, bool_decide (category p = cat))
                                   products))%nat)
          CATEGORIES.

End App.

(** A string of white space only, the empty string among them. *)
Definition blank (s : jsstring) : Prop :=
  Forall (λ c, isWhiteSpace c = true) s.

(** A product list as the form keeps it: distinct identifiers, and
    between one and fifty products. *)
Definition wellFormed (products : list App.Product) : Prop :=
  NoDup (App.id <$> products) ∧ (1 ≤ length products ≤ 50)%nat.

(** The group the handler emits for an entry of the form's summary. *)
Definition summaryGroup (entry : App.Category * list App.Product) : CategoryGroup :=
  {| category_name := toUpperCase (App.label entry.1);
     products := productRow <$> (App.productJson <$> entry.2) |}.

(** The error texts of the handler. *)
Definition errorTexts : list jsstring :=
  [lit "Method not allowed"; lit "Address is required";
   lit "At least one product is required"; lit "Template file not found";
   lit "Template file is corrupted"; lit "Template structure invalid";
   lit "Template rendering failed"; lit "Render failed";
   lit "Failed to generate document"].

(** The data line 109 sets on the engine, for the formatted date and the
    category groups. *)
Definition mergeDataOf (req : Request) (d : jsstring) (groups : list CategoryGroup)
  : MergeData :=
  {| address := prop (requestBody req) "address";
     date := d;
     contact_name := or_else (prop (requestBody req) "contactName") (JStr []);
     company := or_else (prop (requestBody req) "company") (JStr []);
     phone_number := or_else (prop (requestBody req) "phoneNumber") (JStr []);
     email := or_else (prop (requestBody req) "email") (JStr []);
     categories := groups |}.

(** The collaborators serve the request: the modules load, the template
    is found, read and opened, the date can be formatted, and the calls
    the handler makes for this request (the engine built with the options
    for [has_images], the data with [groups] set on it, the render, the
    serialisation) all return, the last one the bytes [buf]. *)
Definition served (w : World) (req : Request) (has_images : bool)
    (groups : list CategoryGroup) (buf : Buffer) : Prop :=
  import_modules w = inr () ∧
  ∃ path content zip d doc doc' merged,
    locateTemplate w = Normal path ∧
    readFileSync w path = inr content ∧
    PizZip_new w content = inr zip ∧
    formattedDate w (prop (requestBody req) "date") = Normal d ∧
    Docxtemplater_new w zip (engineOptions w has_images) = inr doc ∧
    setData w doc (mergeDataOf req d groups) = inr doc' ∧
    render w doc' = inr merged ∧
    generate w merged = inr buf.

(** A world whose engine instance is the options it was built with. *)
Definition recordingWorld : World :=
  {| Zip := Buffer;
     Doc := Options;
     import_modules := inr ();
     existsSync := λ _, true;
     readFileSync := λ _, inr [80; 75; 3; 4]%N;
     PizZip_new := λ content, inr content;
     Date_new := λ _, inr None;
     Date_now := 1793577600000;
     format_en_AU := λ _, lit "2 November 2026";
     Buffer_from_base64 := λ v,
       match v with
       | JStr s => inr (base64Bytes (base64Values s))
       | _ => inl {| message := Text (lit "The first argument must be of type string");
                     properties_errors := None |}
       end;
     Docxtemplater_new := λ _ options, inr options;
     setData := λ doc _, inr doc;
     render := λ doc, inr doc;
     generate := λ _, inr [80; 75; 5; 6]%N |}.

(** A product with a small image payload, the start of a PNG file. *)
Definition pictured : JSValue :=
  JObj [(lit "category", JStr (lit "Kitchen"));
        (lit "image", JStr (lit "iVBORw0KGgo="))].

(** The error texts that come without details. *)
Definition bareErrorTexts : list jsstring :=
  [lit "Method not allowed"; lit "Address is required";
   lit "At least one product is required"; lit "Template file not found"].

(** A form with two products, one of them left empty. *)
Definition sampleForm : App.Form :=
  {| App.address := lit " 12 Smith St ";
     App.date := lit "2025-03-04";
     App.contactName := lit "Jo";
     App.company := [];
     App.phoneNumber := [];
     App.email := [];
     App.products :=
       [ App.with_change (App.emptyProduct (lit "id-1")) (App.SetCode (lit "B1"));
         App.emptyProduct (lit "id-2") ] |}.

(** The form [f] with other products. *)
Definition withProducts (f : App.Form) (products : list App.Product) : App.Form :=
  {| App.address := App.address f;
     App.date := App.date f;
     App.contactName := App.contactName f;
     App.company := App.company f;
     App.phoneNumber := App.phoneNumber f;
     App.email := App.email f;
     App.products := products |}.

(** An error body with a text from the list, and details exactly when the
    text is not one of the bare ones. *)
Definition known_error (r : Response) : Prop :=
  ∃ error details,
    body r = Json error details ∧
    error ∈ errorTexts ∧
    (details = None ↔ error ∈ bareErrorTexts).

(** * Properties *)

(** ** Completions *)

Lemma bind_Normal {A B} (c : Completion A) (f : A → Completion B) (b : B) :
  c ≫= f = Normal b → ∃ a, c = Normal a ∧ f a = Normal b.
Proof. destruct c as [a| |]; [eauto | discriminate | discriminate]. Qed.

(** ** The loop over the products *)

Lemma bucket_empty k : bucket ∅ k = [].
Proof. unfold bucket. by rewrite lookup_empty. Qed.

Lemma bucket_insert o k rows k' :
  bucket (<[k := rows]> o) k' = if bool_decide (k = k') then rows else bucket o k'.
Proof.
  unfold bucket. rewrite lookup_insert.
  case_decide; case_bool_decide; done.
Qed.

Lemma rowsFor_cons k p ps :
  rowsFor k (p :: ps) = (if keyed k p then [productRow p] else []) ++ rowsFor k ps.
Proof. unfold rowsFor. simpl. by destruct (keyed k p). Qed.

Lemma rowsFor_app k ps qs : rowsFor k (ps ++ qs) = rowsFor k ps ++ rowsFor k qs.
Proof. unfold rowsFor. by rewrite List.filter_app, fmap_app. Qed.

Lemma keyed_Normal k k' p :
  categoryKey p = Normal k' → keyed k p = bool_decide (k' = k).
Proof. unfold keyed. by intros ->. Qed.

(** A turn of the loop, in one step: it throws when the key names an
    inherited member and nothing is stored under it, and appends the row
    to the key's bucket otherwise. *)
Lemma groupProduct_unfold o p :
  groupProduct o p =
    k ← categoryKey p;
    match o !! k with
    | None =>
        if bool_decide (k ∈ Object_prototype_keys)
        then Throw (TypeError (NotAFunction "productsByCategory[cat].push"))
        else Normal (<[k := [productRow p]]> o)
    | Some rows => Normal (<[k := rows ++ [productRow p]]> o)
    end.
Proof.
  unfold groupProduct. destruct (categoryKey p) as [k| |]; [|done..].
  change (Normal k ≫= ?f) with (f k). cbv beta.
  unfold member. destruct (o !! k) as [rows|] eqn:Hok.
  - by rewrite Hok.
  - destruct (bool_decide (k ∈ Object_prototype_keys)).
    + by rewrite Hok.
    + by rewrite lookup_insert_eq, insert_insert_eq.
Qed.

(** A turn of the loop that completes has appended the row to the bucket
    of the product's key. *)
Lemma groupProduct_Normal o p o' :
  groupProduct o p = Normal o' →
  ∃ k, categoryKey p = Normal k ∧ o' = <[k := bucket o k ++ [productRow p]]> o.
Proof.
  rewrite groupProduct_unfold. intros H.
  apply bind_Normal in H as (k & Hk & H). exists k. split; [done|].
  unfold bucket. destruct (o !! k) as [rows|]; [by simplify_eq|].
  destruct (bool_decide (k ∈ Object_prototype_keys)); by simplify_eq.
Qed.

(** A groupable product makes the turn complete. *)
Lemma groupProduct_groupable o p k :
  categoryKey p = Normal k → k ∉ Object_prototype_keys →
  groupProduct o p = Normal (<[k := bucket o k ++ [productRow p]]> o).
Proof.
  intros Hk Hproto. rewrite groupProduct_unfold, Hk.
  change (Normal k ≫= ?f) with (f k). cbv beta.
  unfold bucket. destruct (o !! k) as [rows|]; [done|].
  by rewrite bool_decide_eq_false_2.
Qed.

Lemma groupProducts_Normal ps : ∀ o o',
  groupProducts o ps = Normal o' →
  ∀ k, bucket o' k = bucket o k ++ rowsFor k ps.
Proof.
  induction ps as [|p ps IH]; intros o o' H k; simpl in H.
  - simplify_eq. unfold rowsFor. simpl. by rewrite app_nil_r.
  - apply bind_Normal in H as (o1 & H1 & H).
    apply groupProduct_Normal in H1 as (kp & Hkp & ->).
    rewrite (IH _ _ H k), bucket_insert, rowsFor_cons, (keyed_Normal _ _ _ Hkp).
    case_bool_decide; [subst; by rewrite <- app_assoc | done].
Qed.

Lemma groupProducts_groupable ps : ∀ o,
  Forall groupable ps → ∃ o', groupProducts o ps = Normal o'.
Proof.
  induction ps as [|p ps IH]; intros o Hps; simpl; [eauto|].
  apply Forall_cons in Hps as [(k & Hk & Hproto) Hps].
  rewrite (groupProduct_groupable o p k Hk Hproto). simpl. by apply IH.
Qed.

Lemma existsb_keyed k ps :
  existsb (keyed k) ps = bool_decide (0 < length (rowsFor k ps))%nat.
Proof.
  induction ps as [|p ps IH]; [done|].
  rewrite rowsFor_cons. simpl. by destruct (keyed k p).
Qed.

Lemma hasProducts_bucket o k :
  hasProducts o k = bool_decide (0 < length (bucket o k))%nat.
Proof. unfold hasProducts, bucket. by destruct (o !! k). Qed.

(** The groups read off the finished buckets are the specification's. *)
Lemma categoriesData_groupProducts ps o :
  groupProducts ∅ ps = Normal o → categoriesData o = groupsInFixedOrder ps.
Proof.
  intros H. pose proof (groupProducts_Normal _ _ _ H) as Hb.
  assert (∀ k, bucket o k = rowsFor k ps) as Hrows.
  { intros k. by rewrite Hb, bucket_empty. }
  unfold categoriesData, groupsInFixedOrder.
  induction categoryOrder as [|c cs IH]; [done|]. simpl.
  rewrite hasProducts_bucket, existsb_keyed, Hrows.
  case_bool_decide; simpl; [|done].
  f_equal; [|done]. f_equal. apply Hrows.
Qed.

Lemma groupByCategory_Normal ps gs :
  groupByCategory ps = Normal gs → gs = groupsInFixedOrder ps.
Proof.
  unfold groupByCategory. intros H.
  apply bind_Normal in H as (o & Ho & H). simplify_eq.
  by apply categoriesData_groupProducts.
Qed.

Lemma groupByCategory_groupable ps :
  Forall groupable ps → groupByCategory ps = Normal (groupsInFixedOrder ps).
Proof.
  intros Hps. destruct (groupProducts_groupable ps ∅ Hps) as [o Ho].
  assert (groupByCategory ps = Normal (categoriesData o)) as ->
    by (unfold groupByCategory; by rewrite Ho).
  f_equal. by apply categoriesData_groupProducts.
Qed.

Lemma categoryOrder_not_inherited k :
  k ∈ categoryOrder → k ∉ Object_prototype_keys.
Proof.
  intros Hk Hproto. revert Hk.
  repeat (apply elem_of_cons in Hproto as [->|Hproto];
          [by apply (bool_decide_unpack _)|]).
  by apply elem_of_nil in Hproto.
Qed.

(** A JSON object whose category is missing, or a string that names no
    member of Object.prototype, can be stored. *)
Lemma groupable_object props :
  match lookupProp props (lit "category") with
  | None => True
  | Some (JStr s) => s ∉ Object_prototype_keys
  | Some _ => False
  end →
  groupable (JObj props).
Proof.
  unfold groupable, categoryKey, get, prop. simpl.
  destruct (lookupProp props (lit "category")) as [[| | | |s| |]|]; try done.
  - intros Hs. unfold or_else. simpl. case_bool_decide; simpl.
    + exists (lit "Other"). split; [done|].
      apply categoryOrder_not_inherited. set_solver.
    + eauto.
  - intros _. exists (lit "Other"). split; [done|].
    apply categoryOrder_not_inherited. set_solver.
Qed.

(** ** Products with a category outside the list *)

Lemma groupProduct_agree s o1 o2 q :
  s ∉ Object_prototype_keys →
  (∀ k, k ≠ s → o1 !! k = o2 !! k) →
  agree_off s (groupProduct o1 q) (groupProduct o2 q).
Proof.
  intros Hs Hagree. rewrite !groupProduct_unfold.
  destruct (categoryKey q) as [k| |]; [|done..].
  change (Normal k ≫= ?f) with (f k). cbv beta.
  destruct (decide (k = s)) as [->|Hne].
  - rewrite bool_decide_eq_false_2 by done.
    destruct (o1 !! s), (o2 !! s); simpl;
      intros k Hk; rewrite !lookup_insert_ne by done; by apply Hagree.
  - rewrite <- (Hagree k Hne).
    destruct (o1 !! k) as [rows|];
      [|destruct (bool_decide (k ∈ Object_prototype_keys)); [done|]];
      simpl; intros k' Hk'; rewrite !lookup_insert;
      (case_decide; [done|by apply Hagree]).
Qed.

Lemma groupProducts_agree s qs : ∀ o1 o2,
  s ∉ Object_prototype_keys →
  (∀ k, k ≠ s → o1 !! k = o2 !! k) →
  agree_off s (groupProducts o1 qs) (groupProducts o2 qs).
Proof.
  induction qs as [|q qs IH]; intros o1 o2 Hs Hagree; simpl; [done|].
  pose proof (groupProduct_agree s o1 o2 q Hs Hagree) as Hq.
  destruct (groupProduct o1 q), (groupProduct o2 q); simpl in *; try done.
  by apply IH.
Qed.

Lemma groupProducts_app ps qs o :
  groupProducts o (ps ++ qs) = groupProducts o ps ≫= λ o', groupProducts o' qs.
Proof.
  revert o. induction ps as [|p ps IH]; intros o; simpl; [done|].
  destruct (groupProduct o p); simpl; [apply IH|done..].
Qed.

(** The groups only read the buckets of the seven listed categories. *)
Lemma categoriesData_agree s o1 o2 :
  s ∉ categoryOrder →
  (∀ k, k ≠ s → o1 !! k = o2 !! k) →
  categoriesData o1 = categoriesData o2.
Proof.
  intros Hs Hagree. unfold categoriesData.
  induction categoryOrder as [|c cs IH]; [done|].
  apply not_elem_of_cons in Hs as [Hne Hs]. specialize (IH Hs).
  assert (o1 !! c = o2 !! c) as Hc by (apply Hagree; congruence).
  assert (hasProducts o1 c = hasProducts o2 c) as Hhas
    by (unfold hasProducts; by rewrite Hc).
  simpl. rewrite Hhas. destruct (hasProducts o2 c); [|done].
  rewrite !fmap_cons. by rewrite Hc, IH.
Qed.

(** C1 (as amended).  A product whose category is a non-empty string
    outside the seven listed ones is stored under that string, not under
    "Other", and no group is emitted for it: the category data is the same
    as for the request without the product.  (The string must not name a
    member of Object.prototype, for which the loop throws.) *)
Theorem unlisted_category_is_dropped (xs ys : list JSValue) (p : JSValue)
    (s : jsstring) :
  prop p "category" = JStr s →
  s ≠ [] →
  s ∉ categoryOrder →
  s ∉ Object_prototype_keys →
  categoryKey p = Normal s ∧
  (∀ o, groupProducts ∅ (xs ++ p :: ys) = Normal o → productRow p ∈ bucket o s) ∧
  groupByCategory (xs ++ p :: ys) = groupByCategory (xs ++ ys).
Proof.
  intros Hcat Hne Hlisted Hproto.
  assert (categoryKey p = Normal s) as Hkey.
  { unfold categoryKey, get. destruct p as [| | | | | |props]; try done.
    unfold isNullish. change (Normal ?x ≫= ?f) with (f x). cbv beta.
    rewrite Hcat. unfold or_else, toBoolean.
    by rewrite bool_decide_eq_false_2. }
  split; [done|]. split.
  - intros o Ho. rewrite (groupProducts_Normal _ _ _ Ho), bucket_empty.
    simpl. rewrite rowsFor_app, rowsFor_cons, (keyed_Normal _ _ _ Hkey).
    rewrite bool_decide_eq_true_2 by done. set_solver.
  - unfold groupByCategory. rewrite !groupProducts_app. simpl.
    destruct (groupProducts ∅ xs) as [o| |]; simpl; [|done..].
    rewrite (groupProduct_groupable o p s Hkey Hproto). simpl.
    pose proof (groupProducts_agree s ys (<[s:=bucket o s ++ [productRow p]]> o) o
                  Hproto) as Hys.
    destruct (groupProducts _ ys) as [o1| |], (groupProducts o ys) as [o2| |];
      simpl in *; try (by exfalso; apply Hys; intros; apply lookup_insert_ne).
    + f_equal. apply (categoriesData_agree s); [done|].
      apply Hys. intros k Hk. by apply lookup_insert_ne.
    + f_equal. apply Hys. intros k Hk. by apply lookup_insert_ne.
    + f_equal. apply Hys. intros k Hk. by apply lookup_insert_ne.
Qed.

Lemma unlisted_category_is_dropped_witness :
  let p := product "Unknown" "U1" in
  productRow p ∈ bucket (<[lit "Unknown" := [productRow p]]>
                          (<[lit "Kitchen" := [productRow (product "Kitchen" "K1")]]> ∅))
                        (lit "Unknown") ∧
  groupByCategory [product "Kitchen" "K1"; p] = groupByCategory [product "Kitchen" "K1"].
Proof.
  intros p.
  destruct (unlisted_category_is_dropped [product "Kitchen" "K1"] [] p (lit "Unknown"))
    as (_ & Hbucket & Hsame).
  - reflexivity.
  - discriminate.
  - apply (bool_decide_unpack _). vm_compute. reflexivity.
  - apply (bool_decide_unpack _). vm_compute. reflexivity.
  - split; [|exact Hsame]. apply Hbucket. reflexivity.
Defined.

(** C1 as stated fails: the product of category "Unknown" is the only one
    of the request, and the emitted category data is empty, so no group
    headed "OTHER" holds its row. *)
Lemma unknown_category_not_under_other :
  let p := product "Unknown" "U1" in
  prop p "category" = JStr (lit "Unknown") ∧
  (lit "Unknown" ∉ categoryOrder) ∧
  (∃ groups, groupByCategory [p] = Normal groups ∧
             ¬ emitted_under (lit "OTHER") p groups).
Proof.
  intros p. split; [reflexivity|]. split.
  - apply (bool_decide_unpack _). vm_compute. reflexivity.
  - exists []. split; [reflexivity|].
    intros (g & Hg & _). by apply elem_of_nil in Hg.
Qed.

(** A category that names a member of Object.prototype makes the loop
    throw: the inherited member is truthy and has no [push]. *)
Lemma inherited_category_throws :
  groupByCategory [product "constructor" "C1"]
  = Throw (TypeError (NotAFunction "productsByCategory[cat].push")).
Proof. reflexivity. Qed.

(** ** The stages of the handler *)

(** The fixed text around the file name is accepted in a header, so the
    content disposition is accepted exactly when the file name is. *)
Lemma content_disposition_valid name :
  forallb validHeaderChar (content_disposition name).2
  = forallb validHeaderChar name.
Proof.
  unfold content_disposition. simpl.
  rewrite !forallb_app.
  change (forallb validHeaderChar (lit "attachment; filename=")) with true.
  change (forallb validHeaderChar dquote) with true.
  change (forallb validHeaderChar (lit "Product_Selection_")) with true.
  change (forallb validHeaderChar (lit ".docx")) with true.
  simpl. by rewrite andb_true_r.
Qed.

(** The delivery for a string address. *)
Lemma deliver_string s buf :
  deliver (JStr s) buf =
    if forallb validHeaderChar (replaceWhiteSpace s)
    then Return (respond 200 [content_type; content_disposition (replaceWhiteSpace s)]
                   (Send buf))
    else Throw (TypeError (InvalidHeaderValue (lit "Content-Disposition"))).
Proof.
  unfold deliver, replace_in, setHeader.
  change (Normal ?x ≫= ?f) with (f x). cbv beta.
  rewrite content_disposition_valid.
  by destruct (forallb validHeaderChar (replaceWhiteSpace s)).
Qed.

(** The loops return no response. *)
Lemma groupProduct_no_Return o p r : groupProduct o p ≠ Return r.
Proof.
  rewrite groupProduct_unfold. unfold categoryKey, get, ToPropertyKey.
  destruct (isNullish p); [done|]. simpl.
  destruct (ToString _) as [e|k]; [done|]. simpl.
  destruct (o !! k); [done|]. by destruct (bool_decide _).
Qed.

Lemma groupProducts_no_Return ps : ∀ o r, groupProducts o ps ≠ Return r.
Proof.
  induction ps as [|p ps IH]; intros o r; simpl; [done|].
  pose proof (groupProduct_no_Return o p) as Hp.
  destruct (groupProduct o p); simpl; [apply IH|by destruct (Hp r0)|done].
Qed.

Lemma groupByCategory_no_Return ps r : groupByCategory ps ≠ Return r.
Proof.
  unfold groupByCategory. pose proof (groupProducts_no_Return ps ∅) as Hps.
  destruct (groupProducts ∅ ps); simpl; [done|by destruct (Hps r0)|done].
Qed.

Lemma hasImages_no_Return ps r : hasImages ps ≠ Return r.
Proof.
  induction ps as [|p ps IH]; simpl; [done|].
  unfold get. destruct (isNullish p); [done|]. simpl.
  by destruct (toBoolean _).
Qed.

Section Stages.
Context (w : World).

(** What holds when the data reach the merge. *)
Lemma prepare_Normal req a doc data :
  prepare w req = Normal (a, doc, data) →
  a = prop (requestBody req) "address" ∧
  toBoolean a = true ∧
  address data = a ∧
  formattedDate w (prop (requestBody req) "date") = Normal (date data) ∧
  groupByCategory (elements (prop (requestBody req) "products"))
    = Normal (categories data).
Proof.
  unfold prepare. cbv zeta.
  destruct (toBoolean (prop (requestBody req) "address")) eqn:Haddr; [|done].
  cbn [negb].
  match goal with |- context [if ?c then _ else _] => destruct c end; [done|].
  intros H.
  apply bind_Normal in H as (_ & _ & H).
  apply bind_Normal in H as (templatePath & _ & H).
  apply bind_Normal in H as (content & _ & H).
  apply bind_Normal in H as (zip & _ & H).
  apply bind_Normal in H as (d & Hd & H).
  apply bind_Normal in H as (has_images & _ & H).
  apply bind_Normal in H as (doc' & _ & H).
  apply bind_Normal in H as (gs & Hgs & H). cbv zeta in H.
  apply bind_Normal in H as (doc'' & _ & H).
  by simplify_eq.
Qed.


Lemma formattedDate_no_Return v r : formattedDate w v ≠ Return r.
Proof.
  unfold formattedDate. destruct (toBoolean v); [|done].
  by destruct (Date_new w v).
Qed.

(** An early return of the preparation is one of the two validation
    failures or has status 500. *)
Lemma prepare_Return req r :
  prepare w req = Return r →
  (toBoolean (prop (requestBody req) "address") = false ∧ r = address_required) ∨
  (toBoolean (prop (requestBody req) "address") = true ∧
   (r = products_required ∨ status r = 500)).
Proof.
  unfold prepare. cbv zeta.
  destruct (toBoolean (prop (requestBody req) "address")) eqn:Haddr;
    [|intros [= <-]; by left].
  cbn [negb]. intros H. right. split; [done|]. revert H.
  match goal with |- context [if ?c then _ else _] => destruct c end;
    [intros [= <-]; by left|].
  intros H. right. revert H.
  pose proof (formattedDate_no_Return (prop (requestBody req) "date")) as Hdate.
  pose proof (hasImages_no_Return (elements (prop (requestBody req) "products")))
    as Himages.
  pose proof (groupByCategory_no_Return
                (elements (prop (requestBody req) "products"))) as Hgroups.
  unfold locateTemplate, fail.
  destruct (import_modules w); simpl; [done|].
  destruct (existsSync w InTemplatesDir), (existsSync w InPublicDir); simpl;
    try (intros [= <-]; done);
    (destruct (readFileSync w _); simpl; [done|]);
    (destruct (PizZip_new w _); simpl; [intros [= <-]; done|]);
    (destruct (formattedDate w _) as [?|r1|]; simpl;
       [|by destruct (Hdate r1)|done]);
    (destruct (hasImages _) as [?|r2|]; simpl;
       [|by destruct (Himages r2)|done]);
    (destruct (Docxtemplater_new w _ _); simpl; [intros [= <-]; done|]);
    (destruct (groupByCategory _) as [?|r3|]; simpl;
       [|by destruct (Hgroups r3)|done]);
    by destruct (setData w _ _).
Qed.

Lemma renderDocument_Return doc r :
  renderDocument w doc = Return r → status r = 500.
Proof.
  unfold renderDocument, fail. destruct (render w doc) as [e|d]; simpl; [|done].
  destruct (properties_errors e); by intros [= <-].
Qed.

Lemma renderDocument_Normal doc merged :
  renderDocument w doc = Normal merged → render w doc = inr merged.
Proof.
  unfold renderDocument, fail. destruct (render w doc) as [e|d]; simpl.
  - by destruct (properties_errors e).
  - congruence.
Qed.

Lemma prepare_falsy_address req :
  toBoolean (prop (requestBody req) "address") = false →
  prepare w req = Return address_required.
Proof. unfold prepare. cbv zeta. by intros ->. Qed.

Lemma produce_Normal req a buf :
  produce w req = Normal (a, buf) →
  ∃ doc data merged,
    prepare w req = Normal (a, doc, data) ∧
    render w doc = inr merged ∧
    generate w merged = inr buf.
Proof.
  unfold produce. intros H.
  apply bind_Normal in H as ([[a' doc] data] & Hprepare & H).
  apply bind_Normal in H as (merged & Hrender & H).
  apply bind_Normal in H as (buf' & Hgenerate & H).
  simplify_eq. exists doc, data, merged.
  split; [done|]. split; [by apply renderDocument_Normal|].
  destruct (generate w merged); simpl in *; congruence.
Qed.

Lemma produce_Return req r :
  produce w req = Return r →
  (toBoolean (prop (requestBody req) "address") = false ∧ r = address_required) ∨
  (toBoolean (prop (requestBody req) "address") = true ∧
   (r = products_required ∨ status r = 500)).
Proof.
  unfold produce. pose proof (prepare_Return req) as Hprepare.
  destruct (prepare w req) as [[[a doc] data]|r'|] eqn:Hp; simpl;
    [|intros [= <-]; by apply Hprepare|done].
  apply prepare_Normal in Hp as (-> & Haddr & _).
  pose proof (renderDocument_Return doc) as Hrender.
  destruct (renderDocument w doc) as [merged|r'|]; simpl;
    [|intros [= <-]; right; split; [done|]; right; by apply Hrender|done].
  by destruct (generate w merged).
Qed.

Lemma handler_POST req :
  method req = lit "POST" →
  handler w req =
    match produce w req with
    | Return r => r
    | Throw e => failed [] e
    | Normal (a, buf) =>
        match deliver a buf with
        | Normal r | Return r => r
        | Throw e => failed [content_type] e
        end
    end.
Proof. unfold handler. by intros ->. Qed.

(** The answers to a POST request: the address failure exactly for a
    falsy address, and for a truthy one the products failure, a status
    500, or the document under the rewritten address. *)
Lemma handler_POST_cases req :
  method req = lit "POST" →
  (toBoolean (prop (requestBody req) "address") = false ∧
   handler w req = address_required) ∨
  (toBoolean (prop (requestBody req) "address") = true ∧
   (handler w req = products_required ∨
    status (handler w req) = 500 ∨
    ∃ buf s, produce w req = Normal (JStr s, buf) ∧
             handler w req =
               respond 200 [content_type; content_disposition (replaceWhiteSpace s)]
                 (Send buf))).
Proof.
  intros Hpost. rewrite (handler_POST req Hpost).
  destruct (toBoolean (prop (requestBody req) "address")) eqn:Haddr.
  - right. split; [done|].
    destruct (produce w req) as [[a buf]|r|e] eqn:Hproduce.
    + destruct a as [| | | |s| |]; try (right; left; reflexivity).
      rewrite deliver_string.
      destruct (forallb validHeaderChar (replaceWhiteSpace s));
        [right; right; by exists buf, s | right; left; reflexivity].
    + apply produce_Return in Hproduce as [[Hfalsy _]|[_ [->|H500]]];
        [congruence | by left | by right; left].
    + right; left. reflexivity.
  - left. split; [done|].
    unfold produce. by rewrite (prepare_falsy_address req Haddr).
Qed.
End Stages.

(** ** The data transformer *)

Lemma or_else_absent v d : absent v → or_else v d = d.
Proof. unfold absent, or_else. by destruct v. Qed.

(** C2 (as amended).  In the row built for a product, every optional field
    that is absent maps to the empty string, and so does an absent image:
    there is no marker for it other than the zero-length string. *)
Theorem absent_fields_map_to_empty_string (p : JSValue) :
  (absent (prop p "code") → code (productRow p) = JStr []) ∧
  (absent (prop p "description") → description (productRow p) = JStr []) ∧
  (absent (prop p "manufacturerDescription") →
     manufacturer_description (productRow p) = JStr []) ∧
  (absent (prop p "productDetails") → product_details (productRow p) = JStr []) ∧
  (absent (prop p "areaDescription") → area_description (productRow p) = JStr []) ∧
  (absent (prop p "quantity") → quantity (productRow p) = JStr []) ∧
  (absent (prop p "price") → price (productRow p) = JStr []) ∧
  (absent (prop p "notes") → notes (productRow p) = JStr []) ∧
  (absent (prop p "image") → image (productRow p) = JStr []).
Proof. unfold productRow; repeat split; simpl; apply or_else_absent. Qed.

Lemma absent_fields_map_to_empty_string_witness :
  let p := JObj [(lit "category", JStr (lit "Kitchen")); (lit "image", JNull)] in
  code (productRow p) = JStr [] ∧ image (productRow p) = JStr [].
Proof.
  intros p.
  destruct (absent_fields_map_to_empty_string p) as (Hcode & _ & _ & _ & _ & _ & _ & _ & Himage).
  split; [apply Hcode | apply Himage]; reflexivity.
Defined.

(** C2 as stated fails: for a product without an image the row holds the
    zero-length string, the very value the claim tells the marker apart
    from. *)
Lemma absent_image_is_the_empty_string :
  absent (prop (product "Kitchen" "K1") "image") ∧
  image (productRow (product "Kitchen" "K1")) = JStr [].
Proof. split; reflexivity. Qed.

(** The names of the emitted groups follow the fixed order, and no emitted
    group is empty. *)
Lemma filter_sublist {A} (f : A → bool) (l : list A) : sublist (List.filter f l) l.
Proof.
  induction l as [|x l IH]; simpl; [constructor|].
  destruct (f x); by constructor.
Qed.

Lemma groupsInFixedOrder_names ps :
  sublist (category_name <$> groupsInFixedOrder ps) (toUpperCase <$> categoryOrder).
Proof.
  unfold groupsInFixedOrder. rewrite <- list_fmap_compose.
  apply (fmap_sublist toUpperCase), filter_sublist.
Qed.

Lemma groupsInFixedOrder_nonempty ps g :
  g ∈ groupsInFixedOrder ps → products g ≠ [].
Proof.
  unfold groupsInFixedOrder. intros Hg.
  apply list_elem_of_fmap in Hg as (c & -> & Hc).
  apply list_elem_of_In, List.filter_In in Hc as [_ Hc].
  rewrite existsb_keyed in Hc. apply bool_decide_eq_true in Hc.
  simpl. intros Hnil. rewrite Hnil in Hc. simpl in Hc. lia.
Qed.



(** ** Validation *)

Lemma address_required_iff_falsy (w : World) (req : Request) :
  method req = lit "POST" →
  handler w req = address_required ↔
  toBoolean (prop (requestBody req) "address") = false.
Proof.
  intros Hpost. split.
  - intros Hresp.
    destruct (handler_POST_cases w req Hpost)
      as [[Hfalsy _]|[_ [Hr|[Hr|(buf & s & _ & Hr)]]]]; [done|exfalso..];
      rewrite Hresp in Hr; vm_compute in Hr; discriminate.
  - intros Hfalsy.
    destruct (handler_POST_cases w req Hpost) as [[_ Hr]|[Htruthy _]];
      [done|congruence].
Qed.

(** The falsy JSON values. *)
Lemma falsy_values v :
  toBoolean v = false ↔
  absent v ∨ v = JStr [] ∨ v = JBool false ∨ ∃ n, v = JNum n ∧ is_zero n = true.
Proof.
  unfold absent. destruct v as [| |b|n|s| |]; simpl.
  - split; intros _; first [by left | done].
  - split; intros _; first [by left | done].
  - split.
    + intros ->. right; right; left. done.
    + intros [?|[?|[?|(n & ? & _)]]]; by simplify_eq.
  - rewrite negb_false_iff. split.
    + intros Hn. right; right; right. by exists n.
    + intros [?|[?|[?|(n' & ? & Hn)]]]; by simplify_eq.
  - rewrite negb_false_iff, bool_decide_eq_true. split.
    + intros ->. right; left. done.
    + intros [?|[?|[?|(n & ? & _)]]]; by simplify_eq.
  - split; [done|]. intros [?|[?|[?|(n & ? & _)]]]; by simplify_eq.
  - split; [done|]. intros [?|[?|[?|(n & ? & _)]]]; by simplify_eq.
Qed.

(** C4 (as amended).  A POST request whose address is absent or empty is
    answered with status 400 and the error "Address is required"; that
    answer is given exactly when the address is falsy, and the falsy
    addresses are the absent one, null, the empty string, false and the
    number zero. *)
Theorem address_required_exactly_for_falsy (w : World) (req : Request) :
  method req = lit "POST" →
  let address := prop (requestBody req) "address" in
  (absent address ∨ address = JStr [] → handler w req = address_required) ∧
  (handler w req = address_required ↔ toBoolean address = false) ∧
  (toBoolean address = false ↔
   absent address ∨ address = JStr [] ∨ address = JBool false ∨
   ∃ n, address = JNum n ∧ is_zero n = true).
Proof.
  intros Hpost address.
  split; [|split; [apply (address_required_iff_falsy w req Hpost)|apply falsy_values]].
  intros Hmissing. apply (address_required_iff_falsy w req Hpost).
  apply falsy_values. destruct Hmissing; auto.
Qed.

Lemma address_required_exactly_for_falsy_witness :
  handler sampleWorld
    (post [(lit "address", JStr []); (lit "products", JArr [product "Kitchen" "K1"])])
  = address_required.
Proof.
  apply (proj1 (address_required_exactly_for_falsy sampleWorld
                  (post [(lit "address", JStr []);
                         (lit "products", JArr [product "Kitchen" "K1"])])
                  eq_refl)).
  right. reflexivity.
Defined.

(** C4 as stated fails: the address false is there and is not the empty
    string, and the request is refused with "Address is required" all the
    same. *)
Lemma false_address_is_refused :
  let req := post [(lit "address", JBool false);
                   (lit "products", JArr [product "Kitchen" "K1"])] in
  method req = lit "POST" ∧
  prop (requestBody req) "address" = JBool false ∧
  ¬ (absent (JBool false) ∨ JBool false = JStr []) ∧
  handler sampleWorld req = address_required.
Proof.
  intros req. repeat split. intros [H|H]; discriminate H.
Qed.

(** C5.  A POST request with a non-empty (truthy) address whose products
    are absent, not an array, or an empty array is answered with status 400
    and the error "At least one product is required". *)
Theorem products_required_when_missing (w : World) (req : Request) :
  method req = lit "POST" →
  let products := prop (requestBody req) "products" in
  toBoolean (prop (requestBody req) "address") = true →
  absent products ∨ isArray products = false ∨ products = JArr [] →
  handler w req = products_required.
Proof.
  intros Hpost products Haddr Hproducts.
  rewrite (handler_POST w req Hpost).
  assert (prepare w req = Return products_required) as Hprepare.
  { unfold prepare. cbv zeta. rewrite Haddr. cbn [negb]. fold products.
    destruct Hproducts as [Habsent|[Hnoarray| ->]]; [| |done].
    - by destruct products.
    - rewrite Hnoarray. cbn [negb]. by rewrite orb_true_r. }
  unfold produce. by rewrite Hprepare.
Qed.

Lemma products_required_when_missing_witness :
  handler sampleWorld
    (post [(lit "address", JStr (lit "12 Smith St")); (lit "products", JStr (lit "none"))])
  = products_required ∧
  handler sampleWorld
    (post [(lit "address", JStr (lit "12 Smith St")); (lit "products", JArr [])])
  = products_required.
Proof.
  split.
  - apply (products_required_when_missing sampleWorld
             (post [(lit "address", JStr (lit "12 Smith St"));
                    (lit "products", JStr (lit "none"))])).
    + reflexivity.
    + reflexivity.
    + right; left. reflexivity.
  - apply (products_required_when_missing sampleWorld
             (post [(lit "address", JStr (lit "12 Smith St"));
                    (lit "products", JArr [])])).
    + reflexivity.
    + reflexivity.
    + right; right. reflexivity.
Defined.

(** ** The answers after the merge *)




(** A truthy address that is no string has no [replace]: the merge
    succeeds and the answer is the 500 of the final catch, with the
    content type already set. *)
Lemma non_string_address_fails :
  handler sampleWorld
    (post [(lit "address", JBool true);
           (lit "products", JArr [product "Kitchen" "K1"])])
  = failed [content_type] (TypeError (NotAFunction "address.replace")).
Proof. reflexivity. Qed.

(** An address with a code unit that a header value may not hold, here
    the L with stroke of U+0141: the merge succeeds, setting the content
    disposition throws, and the answer is the 500 of the final catch. *)
Lemma unencodable_address_fails :
  handler sampleWorld
    (post [(lit "address", JStr [321; 243; 100; 378; 32; 53]%N);
           (lit "products", JArr [product "Kitchen" "K1"])])
  = failed [content_type] (TypeError (InvalidHeaderValue (lit "Content-Disposition"))).
Proof. reflexivity. Qed.

(** C7.  When the merge of a POST request fails, the response has status
    500; its details are the sub-errors of the engine, each written as
    name, colon, message and joined by "; ", if the error carries such a
    collection, and the message of the error itself otherwise. *)
Theorem render_failure_response (w : World) (req : Request) (a : JSValue)
    (doc : Doc w) (data : MergeData) (err : Error) :
  method req = lit "POST" →
  prepare w req = Normal (a, doc, data) →
  render w doc = inl err →
  handler w req =
    respond 500 []
      match properties_errors err with
      | Some errs =>
          Json (lit "Template rendering failed")
            (Some (Text (join (lit "; ")
                           ((λ e, sub_name e ++ lit ": " ++ sub_message e) <$> errs))))
      | None => Json (lit "Render failed") (Some (message err))
      end.
Proof.
  intros Hpost Hprepare Hrender.
  rewrite (handler_POST w req Hpost).
  unfold produce, renderDocument. rewrite Hprepare. simpl.
  rewrite Hrender. simpl. by destruct (properties_errors err).
Qed.

Lemma render_failure_response_witness :
  handler (worldWith (inl unclosed_and_unopened))
    (post [(lit "address", JStr (lit "12 Smith St"));
           (lit "products", JArr [product "Kitchen" "K1"])])
  = respond 500 []
      (Json (lit "Template rendering failed")
         (Some (Text (lit "TemplateError: Unclosed tag; TemplateError: Unopened loop")))).
Proof.
  set (req := post [(lit "address", JStr (lit "12 Smith St"));
                    (lit "products", JArr [product "Kitchen" "K1"])]).
  destruct (prepare (worldWith (inl unclosed_and_unopened)) req)
    as [[[a doc] data]| |] eqn:Hprepare; [|vm_compute in Hprepare; discriminate..].
  rewrite (render_failure_response _ req a doc data unclosed_and_unopened);
    [reflexivity..|exact Hprepare|reflexivity].
Defined.

(** ** The image module *)

Lemma hasImages_existsb ps :
  (∀ p, p ∈ ps → isNullish p = false) →
  hasImages ps = Normal (existsb (λ p, toBoolean (prop p "image")) ps).
Proof.
  induction ps as [|p ps IH]; intros Hps; simpl; [done|].
  unfold get. rewrite (Hps p) by set_solver. simpl.
  destruct (toBoolean (prop p "image")); [done|].
  apply IH. intros q Hq. apply Hps. set_solver.
Qed.

(** A null entry among the products makes the test throw. *)
Lemma hasImages_null :
  hasImages [JNull] = Throw (TypeError (ReadOfNullish "image")).
Proof. reflexivity. Qed.

Lemma hasImages_Normal ps has_images :
  hasImages ps = Normal has_images →
  has_images = true ↔ ∃ p, p ∈ ps ∧ toBoolean (prop p "image") = true.
Proof.
  revert has_images. induction ps as [|p ps IH]; intros has_images; simpl.
  - intros [= <-]. split; [done|]. intros (p & Hp & _). by apply elem_of_nil in Hp.
  - unfold get. destruct (isNullish p); [done|]. simpl.
    destruct (toBoolean (prop p "image")) eqn:Himage.
    + intros [= <-]. split; [|done]. intros _. exists p.
      split; [apply elem_of_cons; by left|done].
    + intros Hrest. rewrite (IH _ Hrest). split.
      * intros (q & Hq & Hqi). exists q. split; [apply elem_of_cons; by right|done].
      * intros (q & Hq & Hqi). apply elem_of_cons in Hq as [->|Hq]; [congruence|eauto].
Qed.

Lemma try_catch_call_Normal {A} (r : Error + A) (h : Error → Completion A)
    (a : A) :
  (∀ e, h e ≠ Normal a) → try_catch (call r) h = Normal a → r = inr a.
Proof.
  destruct r as [e|a']; simpl; intros Hh H; [by destruct (Hh e)|congruence].
Qed.

(** The engine instance of a prepared request: it was built by the
    template engine with the options for the outcome of the image test,
    and the data were set on it. *)
Lemma prepare_Normal_engine (w : World) req a doc data :
  prepare w req = Normal (a, doc, data) →
  ∃ zip has_images doc0,
    hasImages (elements (prop (requestBody req) "products")) = Normal has_images ∧
    Docxtemplater_new w zip (engineOptions w has_images) = inr doc0 ∧
    setData w doc0 data = inr doc.
Proof.
  unfold prepare. cbv zeta.
  destruct (toBoolean (prop (requestBody req) "address")); [|done].
  cbn [negb].
  match goal with |- context [if ?c then _ else _] => destruct c end; [done|].
  intros H.
  apply bind_Normal in H as (_ & _ & H).
  apply bind_Normal in H as (templatePath & _ & H).
  apply bind_Normal in H as (content & _ & H).
  apply bind_Normal in H as (zip & _ & H).
  apply bind_Normal in H as (d & _ & H).
  apply bind_Normal in H as (has_images & Himages & H).
  apply bind_Normal in H as (doc0 & Hdoc & H).
  apply bind_Normal in H as (gs & _ & H). cbv zeta in H.
  apply bind_Normal in H as (doc1 & Hset & H).
  apply try_catch_call_Normal in Hdoc; [|done].
  exists zip, has_images, doc0. split; [done|]. split; [done|].
  injection H as <- <- <-.
  unfold call in Hset. by destruct (setData w doc0 _) as [e|doc'']; simplify_eq.
Qed.

(** C8.  The engine instance of every request that reaches the merge was
    built with options that hold the image module exactly when some
    product of the request has an image payload, and hold no module
    otherwise.  The image getter of the module decodes a non-empty payload
    with Buffer.from(., 'base64') and gives the zero-length buffer for an
    empty or absent one; its size getter gives 132 by 132 whatever the
    image. *)
Theorem image_module_given_to_engine (w : World) (req : Request)
    (a : JSValue) (doc : Doc w) (data : MergeData) :
  prepare w req = Normal (a, doc, data) →
  ∃ zip options doc0,
    Docxtemplater_new w zip options = inr doc0 ∧
    setData w doc0 data = inr doc ∧
    ((modules options = Some [imageModule w] ∧
      ∃ p, p ∈ elements (prop (requestBody req) "products") ∧
           toBoolean (prop p "image") = true) ∨
     (modules options = None ∧
      ¬ ∃ p, p ∈ elements (prop (requestBody req) "products") ∧
             toBoolean (prop p "image") = true)) ∧
    (∀ payload, toBoolean payload = true →
       getImage (imageModule w) payload = call (Buffer_from_base64 w payload)) ∧
    (∀ payload, toBoolean payload = false →
       getImage (imageModule w) payload = Normal []) ∧
    (∀ img payload tag, getSize (imageModule w) img payload tag = (132, 132)).
Proof.
  intros Hprepare.
  apply prepare_Normal_engine in Hprepare
    as (zip & has_images & doc0 & Himages & Hdoc & Hset).
  apply hasImages_Normal in Himages.
  exists zip, (engineOptions w has_images), doc0.
  split; [done|]. split; [done|]. split.
  { destruct has_images; simpl.
    - left. split; [done|]. by apply Himages.
    - right. split; [done|]. intros Hsome. by apply Himages in Hsome. }
  split; [|split; [|done]]; intros payload Hpayload; simpl; by rewrite Hpayload.
Qed.

Lemma image_module_given_to_engine_witness :
  ∃ doc data,
    prepare recordingWorld
      (post [(lit "address", JStr (lit "12 Smith St"));
             (lit "products", JArr [product "Bathroom" "B1"; pictured])])
    = Normal (JStr (lit "12 Smith St"), doc, data) ∧
    modules doc = Some [imageModule recordingWorld] ∧
    getImage (imageModule recordingWorld) (JStr (lit "iVBORw0KGgo="))
    = Normal [137; 80; 78; 71; 13; 10; 26; 10]%N.
Proof.
  set (req := post [(lit "address", JStr (lit "12 Smith St"));
                    (lit "products", JArr [product "Bathroom" "B1"; pictured])]).
  destruct (prepare recordingWorld req) as [[[a doc] data]| |] eqn:Hprepare;
    [|vm_compute in Hprepare; discriminate..].
  destruct (image_module_given_to_engine recordingWorld req a doc data Hprepare)
    as (zip & options & doc0 & Hdoc & Hset & Hmodules & Hdecode & _).
  simpl in Hdoc, Hset. simplify_eq.
  exists doc, data. split.
  { f_equal. f_equal. f_equal. vm_compute in Hprepare. by simplify_eq. }
  split.
  - destruct Hmodules as [[Hyes _]|[_ Hno]]; [done|].
    destruct Hno. exists pictured. split; [|reflexivity].
    apply list_elem_of_In. right. by left.
  - by rewrite Hdecode.
Defined.

(** ** The date *)

(** C9 (as amended).  For a date that is a non-empty string and does not
    parse to a valid date, the formatting neither throws nor uses the
    current date: the date set in the merge data is the text
    "Invalid Date". *)
Theorem invalid_date_text (w : World) (s : jsstring) :
  s ≠ [] →
  Date_new w (JStr s) = inr None →
  formattedDate w (JStr s) = Normal (lit "Invalid Date") ∧
  (∀ req a doc data,
     prop (requestBody req) "date" = JStr s →
     prepare w req = Normal (a, doc, data) →
     date data = lit "Invalid Date").
Proof.
  intros Hs Hparse.
  assert (formattedDate w (JStr s) = Normal (lit "Invalid Date")) as Hdate.
  { unfold formattedDate, toBoolean.
    rewrite bool_decide_eq_false_2 by done. simpl. by rewrite Hparse. }
  split; [done|].
  intros req a doc data Hfield Hprepare.
  apply prepare_Normal in Hprepare as (_ & _ & _ & Hformatted & _).
  rewrite Hfield, Hdate in Hformatted. congruence.
Qed.

Lemma invalid_date_text_witness :
  formattedDate sampleWorld (JStr (lit "next week")) = Normal (lit "Invalid Date").
Proof.
  apply (invalid_date_text sampleWorld (lit "next week")).
  - discriminate.
  - reflexivity.
Defined.

(** C9 as stated fails: the empty string is a date string that does not
    parse to a valid date, and for it the handler does use the current
    date. *)
Lemma empty_date_is_the_current_date :
  Date_new sampleWorld (JStr []) = inr None ∧
  formattedDate sampleWorld (JStr [])
    = Normal (toLocaleDateString sampleWorld (Some (Date_now sampleWorld))) ∧
  formattedDate sampleWorld (JStr []) ≠ Normal (lit "Invalid Date").
Proof. repeat split. vm_compute. discriminate. Qed.

(** ** White space in the address *)

Lemma replaceWhiteSpaceFrom_true_blank s :
  forallb isWhiteSpace s = true → replaceWhiteSpaceFrom true s = [].
Proof.
  induction s as [|c s IH]; simpl; [done|].
  intros [Hc Hs]%andb_true_iff. rewrite Hc. by apply IH.
Qed.

Lemma replaceWhiteSpace_blank s :
  s ≠ [] → forallb isWhiteSpace s = true → replaceWhiteSpace s = lit "_".
Proof.
  destruct s as [|c s]; [done|]. intros _. simpl.
  intros [Hc Hs]%andb_true_iff. unfold replaceWhiteSpace. simpl.
  by rewrite Hc, (replaceWhiteSpaceFrom_true_blank s Hs).
Qed.

(** C10.  The address check rejects falsy addresses only.  A POST request
    whose address is a non-empty string, be it white space only, is not
    answered with the address failure; and when the address is white space
    only, the response that delivers the document, the only one of status
    200, names the attachment Product_Selection__.docx. *)
Theorem blank_address_passes (w : World) (req : Request) (s : jsstring) :
  method req = lit "POST" →
  prop (requestBody req) "address" = JStr s →
  s ≠ [] →
  (∀ req', method req' = lit "POST" →
     handler w req' = address_required ↔
     toBoolean (prop (requestBody req') "address") = false) ∧
  handler w req ≠ address_required ∧
  (forallb isWhiteSpace s = true →
   (∀ a buf, produce w req = Normal (a, buf) →
      handler w req =
        respond 200
          [content_type; (lit "Content-Disposition", underscore_only_disposition)]
          (Send buf)) ∧
   (status (handler w req) = 200 →
      ∃ buf, handler w req =
        respond 200
          [content_type; (lit "Content-Disposition", underscore_only_disposition)]
          (Send buf))).
Proof.
  intros Hpost Haddr Hs.
  assert (toBoolean (prop (requestBody req) "address") = true) as Htruthy.
  { rewrite Haddr. simpl. by rewrite bool_decide_eq_false_2. }
  split; [intros req'; apply address_required_iff_falsy|].
  split.
  { intros Hresp. apply (address_required_iff_falsy w req Hpost) in Hresp.
    congruence. }
  intros Hblank.
  assert (content_disposition (replaceWhiteSpace s)
          = (lit "Content-Disposition", underscore_only_disposition)) as Hname
    by (by rewrite (replaceWhiteSpace_blank s Hs Hblank)).
  split.
  - intros a buf Hproduce.
    pose proof Hproduce as Hp.
    apply produce_Normal in Hp as (doc & data & merged & Hprepare & _).
    apply prepare_Normal in Hprepare as (-> & _).
    rewrite (handler_POST w req Hpost), Hproduce, Haddr.
    rewrite deliver_string, (replaceWhiteSpace_blank s Hs Hblank).
    change (forallb validHeaderChar (lit "_")) with true. cbv iota.
    by rewrite <- Hname, (replaceWhiteSpace_blank s Hs Hblank).
  - intros Hstatus.
    destruct (handler_POST_cases w req Hpost)
      as [[Hfalsy _]|[_ [Hr|[Hr|(buf & s' & Hproduce & Hr)]]]].
    + congruence.
    + rewrite Hr in Hstatus. vm_compute in Hstatus. discriminate.
    + rewrite Hr in Hstatus. discriminate.
    + apply produce_Normal in Hproduce as (doc & data & merged & Hprepare & _).
      apply prepare_Normal in Hprepare as (Hs' & _).
      rewrite Haddr in Hs'. injection Hs' as ->.
      exists buf. by rewrite Hr, Hname.
Qed.

Lemma blank_address_passes_witness :
  let req := post [(lit "address", JStr (lit " "));
                   (lit "products", JArr [product "Kitchen" "K1"])] in
  handler sampleWorld req ≠ address_required ∧
  handler sampleWorld req =
    respond 200
      [content_type; (lit "Content-Disposition", underscore_only_disposition)]
      (Send [80; 75; 5; 6]%N).
Proof.
  intros req.
  destruct (blank_address_passes sampleWorld req (lit " "))
    as (_ & Hpasses & Hblank); [reflexivity|reflexivity|discriminate|].
  split; [exact Hpasses|].
  destruct (Hblank eq_refl) as [Hdelivered _].
  apply (Hdelivered (JStr (lit " "))). reflexivity.
Defined.

(** * Further properties of the handler *)

(** ** The shape of every answer *)

Lemma fail_is_failure {A} st error details r :
  @fail A st error details = Return r → is_failure st r.
Proof. intros [= <-]. by eexists _, _. Qed.

Lemma prepare_Return_failure (w : World) req r :
  prepare w req = Return r → is_failure 400 r ∨ is_failure 500 r.
Proof.
  unfold prepare. cbv zeta.
  destruct (toBoolean (prop (requestBody req) "address"));
    [|intros H; left; by apply fail_is_failure in H].
  cbn [negb].
  match goal with |- context [if ?c then _ else _] => destruct c end;
    [intros H; left; by apply fail_is_failure in H|].
  intros H. right. revert H.
  pose proof (formattedDate_no_Return w (prop (requestBody req) "date")) as Hdate.
  pose proof (hasImages_no_Return (elements (prop (requestBody req) "products")))
    as Himages.
  pose proof (groupByCategory_no_Return
                (elements (prop (requestBody req) "products"))) as Hgroups.
  unfold locateTemplate.
  destruct (import_modules w); simpl; [done|].
  destruct (existsSync w InTemplatesDir), (existsSync w InPublicDir); simpl;
    try apply fail_is_failure;
    (destruct (readFileSync w _); simpl; [done|]);
    (destruct (PizZip_new w _); simpl; [apply fail_is_failure|]);
    (destruct (formattedDate w _) as [?|r1|]; simpl;
       [|by destruct (Hdate r1)|done]);
    (destruct (hasImages _) as [?|r2|]; simpl;
       [|by destruct (Himages r2)|done]);
    (destruct (Docxtemplater_new w _ _); simpl; [apply fail_is_failure|]);
    (destruct (groupByCategory _) as [?|r3|]; simpl;
       [|by destruct (Hgroups r3)|done]);
    by destruct (setData w _ _).
Qed.

Lemma produce_Return_failure (w : World) req r :
  produce w req = Return r → is_failure 400 r ∨ is_failure 500 r.
Proof.
  unfold produce. pose proof (prepare_Return_failure w req) as Hprepare.
  destruct (prepare w req) as [[[a doc] data]|r'|]; simpl;
    [|intros [= <-]; by apply Hprepare|done].
  unfold renderDocument. destruct (render w doc) as [e|merged]; simpl.
  - destruct (properties_errors e); intros H; right; by apply fail_is_failure in H.
  - by destruct (generate w merged).
Qed.

(** The six shapes an answer can have. *)
Lemma handler_shapes (w : World) (req : Request) :
  let r := handler w req in
  (method req = lit "OPTIONS" ∧ r = respond 200 [] End) ∨
  (method req ≠ lit "OPTIONS" ∧ method req ≠ lit "POST" ∧
   r = respond 405 [] (Json (lit "Method not allowed") None)) ∨
  (method req = lit "POST" ∧
   (is_failure 400 r ∨ is_failure 500 r ∨
    (∃ e, r = failed [] e) ∨
    (∃ e, r = failed [content_type] e) ∨
    (∃ s buf, produce w req = Normal (JStr s, buf) ∧
              r = respond 200 [content_type; content_disposition (replaceWhiteSpace s)]
                    (Send buf)))).
Proof.
  intros r. subst r. unfold handler.
  case_bool_decide as Hoptions; [by left|]. right.
  case_bool_decide as Hpost; simpl; [right|by left].
  split; [done|].
  pose proof (produce_Return_failure w req) as Hreturn.
  destruct (produce w req) as [[a buf]|r|e].
  - destruct a as [| | | |s| |]; try (simpl; eauto 10; fail).
    rewrite deliver_string.
    destruct (forallb validHeaderChar (replaceWhiteSpace s)); eauto 10.
  - destruct (Hreturn r eq_refl); eauto.
  - eauto 10.
Qed.

(** Every answer carries the three CORS headers first; after them come
    nothing, the content type alone, or the content type and the
    attachment name. *)
Theorem cors_headers_first (w : World) (req : Request) :
  ∃ rest,
    headers (handler w req) = cors ++ rest ∧
    (rest = [] ∨ rest = [content_type] ∨
     ∃ name, rest = [content_type; content_disposition name]).
Proof.
  destruct (handler_shapes w req)
    as [[_ ->]|[(_ & _ & ->)|(_ & [(e & d & ->)|[(e & d & ->)|[[e ->]|[[e ->]|
         (s & buf & _ & ->)]]]])]];
    simpl; eauto 10.
Qed.

(** Status 405 is the answer to the methods other than OPTIONS and POST,
    and to them only. *)
Theorem method_not_allowed_iff (w : World) (req : Request) :
  status (handler w req) = 405 ↔
  method req ≠ lit "OPTIONS" ∧ method req ≠ lit "POST".
Proof.
  destruct (handler_shapes w req)
    as [[Hm ->]|[(Ho & Hp & ->)|(Hm & [(e & d & ->)|[(e & d & ->)|[[e ->]|[[e ->]|
         (s & buf & _ & ->)]]]])]];
    simpl; split; try done; intros [? ?]; done.
Qed.

(** The body goes with the status: status 200 ends the preflight without
    a body or sends the document; every other status is 400, 405 or 500
    and has a JSON body with an error text. *)
Theorem body_by_status (w : World) (req : Request) :
  let r := handler w req in
  (status r = 200 ∧
   ((method req = lit "OPTIONS" ∧ body r = End) ∨
    (method req = lit "POST" ∧ ∃ buf, body r = Send buf))) ∨
  ((status r = 400 ∨ status r = 405 ∨ status r = 500) ∧
   ∃ error details, body r = Json error details).
Proof.
  intros r. subst r.
  destruct (handler_shapes w req)
    as [[Hm ->]|[(Ho & Hp & ->)|(Hm & [(e & d & ->)|[(e & d & ->)|[[e ->]|[[e ->]|
         (s & buf & _ & ->)]]]])]];
    simpl; eauto 10.
Qed.

(** A document is sent only with status 200, under the Word content type,
    and its bytes are those the serialisation of the merged document
    gave. *)
Theorem document_is_the_generated_one (w : World) (req : Request) (buf : Buffer) :
  body (handler w req) = Send buf →
  status (handler w req) = 200 ∧
  method req = lit "POST" ∧
  content_type ∈ headers (handler w req) ∧
  ∃ doc data merged s,
    prepare w req = Normal (JStr s, doc, data) ∧
    render w doc = inr merged ∧
    generate w merged = inr buf.
Proof.
  destruct (handler_shapes w req)
    as [[Hm ->]|[(Ho & Hp & ->)|(Hm & [(e & d & ->)|[(e & d & ->)|[[e ->]|[[e ->]|
         (s & buf' & Hproduce & ->)]]]])]];
    simpl; try done.
  intros [= ->]. repeat split; [done|set_solver|].
  apply produce_Normal in Hproduce as (doc & data & merged & ? & ? & ?).
  by exists doc, data, merged, s.
Qed.

Lemma document_is_the_generated_one_witness :
  let req := post [(lit "address", JStr (lit "12 Smith St"));
                   (lit "products", JArr [product "Kitchen" "K1"])] in
  status (handler sampleWorld req) = 200 ∧ method req = lit "POST".
Proof.
  intros req.
  destruct (document_is_the_generated_one sampleWorld req [80; 75; 5; 6]%N)
    as (Hstatus & Hmethod & _); [reflexivity|].
  by split.
Defined.

(** ** Validation *)

Lemma prepare_products_missing (w : World) req :
  toBoolean (prop (requestBody req) "address") = true →
  productsMissing (prop (requestBody req) "products") = true →
  prepare w req = Return products_required.
Proof.
  intros Haddr Hmissing. unfold prepare. cbv zeta.
  rewrite Haddr. cbn [negb]. unfold productsMissing in Hmissing.
  by rewrite Hmissing.
Qed.

Lemma prepare_valid_Return (w : World) req r :
  toBoolean (prop (requestBody req) "address") = true →
  productsMissing (prop (requestBody req) "products") = false →
  prepare w req = Return r → status r = 500.
Proof.
  intros Haddr Hvalid. unfold prepare. cbv zeta.
  rewrite Haddr. cbn [negb]. unfold productsMissing in Hvalid. rewrite Hvalid.
  pose proof (formattedDate_no_Return w (prop (requestBody req) "date")) as Hdate.
  pose proof (hasImages_no_Return (elements (prop (requestBody req) "products")))
    as Himages.
  pose proof (groupByCategory_no_Return
                (elements (prop (requestBody req) "products"))) as Hgroups.
  unfold locateTemplate, fail.
  destruct (import_modules w); simpl; [done|].
  destruct (existsSync w InTemplatesDir), (existsSync w InPublicDir); simpl;
    try (intros [= <-]; done);
    (destruct (readFileSync w _); simpl; [done|]);
    (destruct (PizZip_new w _); simpl; [intros [= <-]; done|]);
    (destruct (formattedDate w _) as [?|r1|]; simpl;
       [|by destruct (Hdate r1)|done]);
    (destruct (hasImages _) as [?|r2|]; simpl;
       [|by destruct (Himages r2)|done]);
    (destruct (Docxtemplater_new w _ _); simpl; [intros [= <-]; done|]);
    (destruct (groupByCategory _) as [?|r3|]; simpl;
       [|by destruct (Hgroups r3)|done]);
    by destruct (setData w _ _).
Qed.

(** A valid POST request is answered 200 or 500. *)
Lemma handler_valid_status (w : World) req :
  method req = lit "POST" →
  toBoolean (prop (requestBody req) "address") = true →
  productsMissing (prop (requestBody req) "products") = false →
  status (handler w req) = 200 ∨ status (handler w req) = 500.
Proof.
  intros Hpost Haddr Hvalid. rewrite (handler_POST w req Hpost).
  unfold produce.
  pose proof (prepare_valid_Return w req) as Hprepare.
  destruct (prepare w req) as [[[a doc] data]|r|e]; simpl;
    [|right; by apply Hprepare|by right].
  pose proof (renderDocument_Return w doc) as Hrender.
  destruct (renderDocument w doc) as [merged|r|e]; simpl;
    [|right; by apply Hrender|by right].
  destruct (generate w merged) as [e|buf]; simpl; [by right|].
  destruct a as [| | | |s| |]; try (by right).
  rewrite deliver_string.
  destruct (forallb validHeaderChar (replaceWhiteSpace s)); auto.
Qed.

(** Status 400 is given to a POST request exactly when its address is
    falsy or its products are missing, not an array or empty. *)
Theorem bad_request_iff (w : World) (req : Request) :
  method req = lit "POST" →
  status (handler w req) = 400 ↔
  toBoolean (prop (requestBody req) "address") = false ∨
  productsMissing (prop (requestBody req) "products") = true.
Proof.
  intros Hpost. split.
  - intros Hstatus.
    destruct (toBoolean (prop (requestBody req) "address")) eqn:Haddr; [|by left].
    destruct (productsMissing (prop (requestBody req) "products")) eqn:Hvalid;
      [by right|].
    destruct (handler_valid_status w req Hpost Haddr Hvalid); congruence.
  - destruct (toBoolean (prop (requestBody req) "address")) eqn:Haddr.
    + intros [?|Hmissing]; [done|].
      rewrite (handler_POST w req Hpost). unfold produce.
      by rewrite (prepare_products_missing w req Haddr Hmissing).
    + intros _. by rewrite (proj2 (address_required_iff_falsy w req Hpost) Haddr).
Qed.

Lemma bad_request_iff_witness :
  status (handler sampleWorld
            (post [(lit "address", JStr (lit "12 Smith St"));
                   (lit "products", JObj [])])) = 400.
Proof.
  apply (bad_request_iff sampleWorld
           (post [(lit "address", JStr (lit "12 Smith St"));
                  (lit "products", JObj [])])).
  - reflexivity.
  - right. reflexivity.
Defined.

(** A request that is refused with status 400 is refused before any
    collaborator is called: the answer is the same in every world. *)
Theorem validation_ignores_world (w w' : World) (req : Request) :
  status (handler w req) = 400 → handler w' req = handler w req.
Proof.
  intros Hstatus.
  destruct (decide (method req = lit "POST")) as [Hpost|Hother].
  - destruct (toBoolean (prop (requestBody req) "address")) eqn:Haddr.
    + destruct (productsMissing (prop (requestBody req) "products")) eqn:Hmissing.
      * rewrite !(handler_POST _ req Hpost). unfold produce.
        by rewrite !(prepare_products_missing _ req Haddr Hmissing).
      * destruct (handler_valid_status w req Hpost Haddr Hmissing); congruence.
    + by rewrite !(proj2 (address_required_iff_falsy _ req Hpost) Haddr).
  - unfold handler. case_bool_decide; [done|].
    by rewrite bool_decide_eq_false_2.
Qed.

Lemma validation_ignores_world_witness :
  handler (worldWith (inl unclosed_and_unopened))
    (post [(lit "products", JArr [product "Kitchen" "K1"])])
  = handler sampleWorld (post [(lit "products", JArr [product "Kitchen" "K1"])]).
Proof.
  apply (validation_ignores_world sampleWorld). reflexivity.
Defined.

(** ** Loading the template *)

(** What [prepare] does once the request is valid and the modules are
    loaded, as far as the template archive. *)
Lemma prepare_valid_unfold (w : World) req :
  toBoolean (prop (requestBody req) "address") = true →
  productsMissing (prop (requestBody req) "products") = false →
  import_modules w = inr () →
  prepare w req =
    (templatePath ← locateTemplate w;
     content ← call (readFileSync w templatePath);
     zip ← try_catch (call (PizZip_new w content))
           (λ err, fail 500 "Template file is corrupted" (Some (message err)));
     date ← formattedDate w (prop (requestBody req) "date");
     has_images ← hasImages (elements (prop (requestBody req) "products"));
     doc ← try_catch (call (Docxtemplater_new w zip (engineOptions w has_images)))
           (λ err, fail 500 "Template structure invalid" (Some (message err)));
     categoriesData ← groupByCategory (elements (prop (requestBody req) "products"));
     let data :=
       {| address := prop (requestBody req) "address";
          date := date;
          contact_name := or_else (prop (requestBody req) "contactName") (JStr []);
          company := or_else (prop (requestBody req) "company") (JStr []);
          phone_number := or_else (prop (requestBody req) "phoneNumber") (JStr []);
          email := or_else (prop (requestBody req) "email") (JStr []);
          categories := categoriesData |} in
     doc ← call (setData w doc data);
     Normal (prop (requestBody req) "address", doc, data)).
Proof.
  intros Haddr Hvalid Himport. unfold prepare. cbv zeta.
  rewrite Haddr. cbn [negb]. unfold productsMissing in Hvalid.
  by rewrite Hvalid, Himport.
Qed.

(** An answer without details comes from the preparation. *)
Lemma handler_no_details (w : World) req st error :
  method req = lit "POST" →
  handler w req = respond st [] (Json error None) →
  prepare w req = Return (respond st [] (Json error None)).
Proof.
  intros Hpost. rewrite (handler_POST w req Hpost). unfold produce.
  destruct (prepare w req) as [[[a doc] data]|r|e]; simpl;
    [|by intros ->|intros [=]].
  unfold renderDocument, fail. destruct (render w doc) as [e|merged]; simpl.
  - destruct (properties_errors e); intros [=].
  - destruct (generate w merged) as [e|buf]; simpl; [intros [=]|].
    destruct a as [| | | |s| |]; try (simpl; intros [=]; fail).
    rewrite deliver_string.
    destruct (forallb validHeaderChar (replaceWhiteSpace s)); intros [=].
Qed.

(** Once the template is found, an early return of the preparation gives
    details. *)
Lemma prepare_found_details (w : World) req r :
  toBoolean (prop (requestBody req) "address") = true →
  productsMissing (prop (requestBody req) "products") = false →
  import_modules w = inr () →
  existsSync w InTemplatesDir = true ∨ existsSync w InPublicDir = true →
  prepare w req = Return r →
  ∃ error details, body r = Json error (Some details).
Proof.
  intros Haddr Hvalid Himport Hfound.
  rewrite (prepare_valid_unfold w req Haddr Hvalid Himport).
  pose proof (formattedDate_no_Return w (prop (requestBody req) "date")) as Hdate.
  pose proof (hasImages_no_Return (elements (prop (requestBody req) "products")))
    as Himages.
  pose proof (groupByCategory_no_Return
                (elements (prop (requestBody req) "products"))) as Hgroups.
  unfold locateTemplate, fail.
  destruct (existsSync w InTemplatesDir), (existsSync w InPublicDir); simpl;
    [| | |by destruct Hfound];
    (destruct (readFileSync w _); simpl; [done|]);
    (destruct (PizZip_new w _); simpl; [intros [= <-]; simpl; eauto|]);
    (destruct (formattedDate w _) as [?|r1|]; simpl;
       [|by destruct (Hdate r1)|done]);
    (destruct (hasImages _) as [?|r2|]; simpl;
       [|by destruct (Himages r2)|done]);
    (destruct (Docxtemplater_new w _ _); simpl; [intros [= <-]; simpl; eauto|]);
    (destruct (groupByCategory _) as [?|r3|]; simpl;
       [|by destruct (Hgroups r3)|done]);
    by destruct (setData w _ _).
Qed.

(** For a valid POST request whose modules load, the answer is the 500
    "Template file not found", without details, exactly when the template
    is at neither of the two places; nothing the request holds beyond its
    address and products being there matters for that. *)
Theorem template_not_found_iff (w : World) (req : Request) :
  method req = lit "POST" →
  toBoolean (prop (requestBody req) "address") = true →
  productsMissing (prop (requestBody req) "products") = false →
  import_modules w = inr () →
  handler w req = respond 500 [] (Json (lit "Template file not found") None) ↔
  existsSync w InTemplatesDir = false ∧ existsSync w InPublicDir = false.
Proof.
  intros Hpost Haddr Hvalid Himport. split.
  - intros Hresp. apply (handler_no_details w req _ _ Hpost) in Hresp.
    destruct (existsSync w InTemplatesDir) eqn:H1;
      [|destruct (existsSync w InPublicDir) eqn:H2; [|done]];
      (eapply prepare_found_details in Hresp as (? & ? & [=]); eauto).
  - intros [H1 H2]. rewrite (handler_POST w req Hpost). unfold produce.
    rewrite (prepare_valid_unfold w req Haddr Hvalid Himport).
    unfold locateTemplate. by rewrite H1, H2.
Qed.

Lemma template_not_found_iff_witness :
  handler templatelessWorld
    (post [(lit "address", JStr (lit "12 Smith St"));
           (lit "products", JArr [JNull])])
  = respond 500 [] (Json (lit "Template file not found") None).
Proof.
  apply (template_not_found_iff templatelessWorld
           (post [(lit "address", JStr (lit "12 Smith St"));
                  (lit "products", JArr [JNull])]));
    try reflexivity. by split.
Defined.

(** When the archive library rejects the template that was read, from
    whichever of the two places, the answer is the 500 "Template file is
    corrupted" with the library's message; the date and the products are
    not looked at before. *)
Theorem template_corrupted (w : World) (req : Request)
    (path : TemplatePath) (content : Buffer) (err : Error) :
  method req = lit "POST" →
  toBoolean (prop (requestBody req) "address") = true →
  productsMissing (prop (requestBody req) "products") = false →
  import_modules w = inr () →
  locateTemplate w = Normal path →
  readFileSync w path = inr content →
  PizZip_new w content = inl err →
  handler w req =
    respond 500 [] (Json (lit "Template file is corrupted") (Some (message err))).
Proof.
  intros Hpost Haddr Hvalid Himport Hpath Hread Hzip.
  rewrite (handler_POST w req Hpost). unfold produce.
  rewrite (prepare_valid_unfold w req Haddr Hvalid Himport).
  rewrite Hpath. simpl. rewrite Hread. simpl. by rewrite Hzip.
Qed.

Lemma template_corrupted_witness :
  handler corruptWorld
    (post [(lit "address", JStr (lit "12 Smith St"));
           (lit "products", JArr [product "Kitchen" "K1"])])
  = respond 500 []
      (Json (lit "Template file is corrupted")
         (Some (Text (lit "Can't find end of central directory")))).
Proof.
  apply (template_corrupted corruptWorld
           (post [(lit "address", JStr (lit "12 Smith St"));
                  (lit "products", JArr [product "Kitchen" "K1"])])
           InPublicDir [0; 1]%N no_central_directory); reflexivity.
Defined.

(** When the template engine rejects the template, the answer is the 500
    "Template structure invalid" with the engine's message; the products
    are tested for images before, but not grouped. *)
Theorem template_structure_invalid (w : World) (req : Request)
    (path : TemplatePath) (content : Buffer) (zip : Zip w) (d : jsstring)
    (has_images : bool) (err : Error) :
  method req = lit "POST" →
  toBoolean (prop (requestBody req) "address") = true →
  productsMissing (prop (requestBody req) "products") = false →
  import_modules w = inr () →
  locateTemplate w = Normal path →
  readFileSync w path = inr content →
  PizZip_new w content = inr zip →
  formattedDate w (prop (requestBody req) "date") = Normal d →
  hasImages (elements (prop (requestBody req) "products")) = Normal has_images →
  Docxtemplater_new w zip (engineOptions w has_images) = inl err →
  handler w req =
    respond 500 [] (Json (lit "Template structure invalid") (Some (message err))).
Proof.
  intros Hpost Haddr Hvalid Himport Hpath Hread Hzip Hdate Himages Hdoc.
  rewrite (handler_POST w req Hpost). unfold produce.
  rewrite (prepare_valid_unfold w req Haddr Hvalid Himport).
  rewrite Hpath. simpl. rewrite Hread. simpl. rewrite Hzip. simpl.
  rewrite Hdate. simpl. rewrite Himages. simpl. by rewrite Hdoc.
Qed.

Lemma template_structure_invalid_witness :
  handler malformedWorld
    (post [(lit "address", JStr (lit "12 Smith St"));
           (lit "products", JArr [product "constructor" "C1"])])
  = respond 500 []
      (Json (lit "Template structure invalid") (Some (message unclosed_and_unopened))).
Proof.
  apply (template_structure_invalid malformedWorld
           (post [(lit "address", JStr (lit "12 Smith St"));
                  (lit "products", JArr [product "constructor" "C1"])])
           InTemplatesDir [80; 75]%N [80; 75]%N [] false
           unclosed_and_unopened); reflexivity.
Defined.

(** ** The date *)

(** The date of the merge data is the current date in the long en-AU
    form when the request has no date or a falsy one, and the parsed date
    in that form when the date is truthy and parses. *)
Theorem date_is_formatted (w : World) (req : Request)
    (a : JSValue) (doc : Doc w) (data : MergeData) :
  prepare w req = Normal (a, doc, data) →
  (toBoolean (prop (requestBody req) "date") = false →
     date data = format_en_AU w (Date_now w)) ∧
  (∀ t, toBoolean (prop (requestBody req) "date") = true →
        Date_new w (prop (requestBody req) "date") = inr (Some t) →
        date data = format_en_AU w t).
Proof.
  intros Hprepare.
  apply prepare_Normal in Hprepare as (_ & _ & _ & Hdate & _).
  unfold formattedDate in Hdate. split.
  - intros Hfalsy. rewrite Hfalsy in Hdate. simpl in Hdate. congruence.
  - intros t Htruthy Hparse. rewrite Htruthy, Hparse in Hdate. simpl in Hdate.
    congruence.
Qed.

Lemma date_is_formatted_witness :
  ∃ data, date data = lit "4 March 2025".
Proof.
  set (req := post [(lit "address", JStr (lit "12 Smith St"));
                    (lit "date", JStr (lit "2025-03-04"));
                    (lit "products", JArr [product "Kitchen" "K1"])]).
  destruct (prepare sampleWorld req) as [[[a doc] data]| |] eqn:Hprepare;
    [|vm_compute in Hprepare; discriminate..].
  destruct (date_is_formatted sampleWorld req a doc data Hprepare) as [_ Hparsed].
  exists data. by rewrite (Hparsed 1741046400000).
Defined.

(** ** Which product lists can be grouped *)

Lemma groupProducts_clean ps : ∀ o o',
  (∀ k, k ∈ Object_prototype_keys → o !! k = None) →
  groupProducts o ps = Normal o' →
  Forall groupable ps.
Proof.
  induction ps as [|p ps IH]; intros o o' Hclean H; simpl in H; [constructor|].
  apply bind_Normal in H as (o1 & H1 & H).
  rewrite groupProduct_unfold in H1.
  apply bind_Normal in H1 as (k & Hk & H1).
  assert (k ∉ Object_prototype_keys) as Hproto.
  { intros Hin. rewrite (Hclean k Hin) in H1.
    by rewrite bool_decide_eq_true_2 in H1. }
  constructor; [by exists k|].
  apply (IH o1 o'); [|done].
  intros k' Hk'. assert (k ≠ k') by congruence.
  destruct (o !! k); [|rewrite bool_decide_eq_false_2 in H1 by done];
    simplify_eq; rewrite lookup_insert_ne by done; by apply Hclean.
Qed.

Lemma groupByCategory_Normal_groupable ps groups :
  groupByCategory ps = Normal groups → Forall groupable ps.
Proof.
  unfold groupByCategory. intros H.
  apply bind_Normal in H as (o & Ho & _).
  apply (groupProducts_clean ps ∅ o); [|done].
  intros k _. apply lookup_empty.
Qed.

(** The grouping completes exactly for the lists of groupable products:
    no entry is null, every category key can be computed, and none names
    a member of Object.prototype. *)
Theorem grouping_completes_iff (ps : list JSValue) :
  (∃ groups, groupByCategory ps = Normal groups) ↔ Forall groupable ps.
Proof.
  split.
  - intros [groups H]. by apply groupByCategory_Normal_groupable in H.
  - intros Hps. exists (groupsInFixedOrder ps). by apply groupByCategory_groupable.
Qed.

Lemma nullish_not_groupable p : isNullish p = true → ¬ groupable p.
Proof.
  intros Hp (k & Hk & _). unfold categoryKey, get in Hk. by rewrite Hp in Hk.
Qed.

Lemma inherited_not_groupable p s :
  prop p "category" = JStr s → s ∈ Object_prototype_keys → ¬ groupable p.
Proof.
  intros Hcat Hs (k & Hk & Hproto). unfold categoryKey, get in Hk.
  destruct (isNullish p); [done|]. simpl in Hk. rewrite Hcat in Hk.
  unfold or_else, toBoolean in Hk.
  assert (s ≠ []) as Hne.
  { intros ->. revert Hs. by apply (bool_decide_unpack _). }
  rewrite bool_decide_eq_false_2 in Hk by done.
  unfold ToPropertyKey in Hk. simpl in Hk. by simplify_eq.
Qed.

Lemma delivered_is_produced (w : World) req :
  method req = lit "POST" →
  status (handler w req) = 200 →
  ∃ s buf, produce w req = Normal (JStr s, buf).
Proof.
  intros Hpost Hstatus.
  destruct (handler_shapes w req)
    as [[Hm _]|[(_ & Hp & _)|(_ & [(e & d & Hr)|[(e & d & Hr)|[[e Hr]|[[e Hr]|
         (s & buf & Hproduce & _)]]]])]];
    try (rewrite Hr in Hstatus; discriminate); [| |by eauto].
  - rewrite Hpost in Hm. by vm_compute in Hm.
  - done.
Qed.

(** A valid POST request with a product that cannot be grouped, such as a
    null entry or a category "constructor", is answered with status 500,
    whatever the collaborators do. *)
Theorem ungroupable_product_fails (w : World) (req : Request) (p : JSValue) :
  method req = lit "POST" →
  toBoolean (prop (requestBody req) "address") = true →
  p ∈ elements (prop (requestBody req) "products") →
  ¬ groupable p →
  status (handler w req) = 500.
Proof.
  intros Hpost Haddr Hp Hbad.
  assert (productsMissing (prop (requestBody req) "products") = false) as Hvalid.
  { destruct (prop (requestBody req) "products") as [| | | | |[|q qs]|];
      simpl in Hp; try by apply elem_of_nil in Hp. done. }
  destruct (handler_valid_status w req Hpost Haddr Hvalid) as [H200|]; [|done].
  exfalso. apply (delivered_is_produced w req Hpost) in H200 as (s & buf & Hproduce).
  apply produce_Normal in Hproduce as (doc & data & merged & Hprepare & _).
  apply prepare_Normal in Hprepare as (_ & _ & _ & _ & Hgroups).
  assert (Forall groupable (elements (prop (requestBody req) "products"))) as Hall
    by (by apply groupByCategory_Normal_groupable in Hgroups).
  rewrite Forall_forall in Hall. by apply Hbad, Hall.
Qed.

Lemma ungroupable_product_fails_witness :
  status (handler sampleWorld
            (post [(lit "address", JStr (lit "12 Smith St"));
                   (lit "products",
                    JArr [product "Kitchen" "K1"; product "constructor" "C1"])]))
  = 500.
Proof.
  apply (ungroupable_product_fails sampleWorld _ (product "constructor" "C1")).
  - reflexivity.
  - reflexivity.
  - set_solver.
  - apply (inherited_not_groupable _ (lit "constructor")); [reflexivity|].
    set_solver.
Defined.

(** ** What the emitted groups hold *)

Lemma rowsFor_elem k p ps :
  p ∈ ps → keyed k p = true → productRow p ∈ rowsFor k ps.
Proof.
  intros Hp Hk. unfold rowsFor. apply list_elem_of_fmap. exists p. split; [done|].
  apply list_elem_of_In, List.filter_In. split; [by apply list_elem_of_In|done].
Qed.

Lemma groupsInFixedOrder_group ps p cat :
  p ∈ ps → keyed cat p = true → cat ∈ categoryOrder →
  {| category_name := toUpperCase cat; products := rowsFor cat ps |}
  ∈ groupsInFixedOrder ps.
Proof.
  intros Hp Hkeyed Hcat.
  unfold groupsInFixedOrder. apply list_elem_of_fmap. exists cat. split; [done|].
  apply list_elem_of_In, List.filter_In. split; [by apply list_elem_of_In|].
  apply existsb_exists. exists p. split; [by apply list_elem_of_In|done].
Qed.

(** A product whose category key is one of the seven listed names is
    emitted under that name in capitals, in the group of all products of
    that key. *)
Theorem listed_product_is_emitted (ps : list JSValue) (groups : list CategoryGroup)
    (p : JSValue) (cat : jsstring) :
  groupByCategory ps = Normal groups →
  p ∈ ps →
  categoryKey p = Normal cat →
  cat ∈ categoryOrder →
  {| category_name := toUpperCase cat; products := rowsFor cat ps |} ∈ groups ∧
  emitted_under (toUpperCase cat) p groups.
Proof.
  intros Hgroups Hp Hkey Hcat.
  apply groupByCategory_Normal in Hgroups as ->.
  assert (keyed cat p = true) as Hkeyed
    by (rewrite (keyed_Normal _ _ _ Hkey); by apply bool_decide_eq_true_2).
  pose proof (groupsInFixedOrder_group ps p cat Hp Hkeyed Hcat) as Hin.
  split; [done|]. eexists. split; [exact Hin|]. split; [done|].
  simpl. by apply rowsFor_elem.
Qed.

Lemma listed_product_is_emitted_witness :
  emitted_under (lit "LIVING ROOM") (product "Living Room" "L1")
    [ {| category_name := lit "LIVING ROOM";
         products := [productRow (product "Living Room" "L1")] |} ].
Proof.
  apply (listed_product_is_emitted [product "Living Room" "L1"] _
           (product "Living Room" "L1") (lit "Living Room")).
  - reflexivity.
  - set_solver.
  - reflexivity.
  - set_solver.
Defined.

(** A product whose category is missing or falsy (null, the empty string)
    is emitted under "OTHER", whenever the grouping completes. *)
Theorem missing_category_under_other (ps : list JSValue)
    (groups : list CategoryGroup) (p : JSValue) :
  groupByCategory ps = Normal groups →
  p ∈ ps →
  toBoolean (prop p "category") = false →
  emitted_under (lit "OTHER") p groups.
Proof.
  intros Hgroups Hp Hcat.
  pose proof (groupByCategory_Normal_groupable ps groups Hgroups) as Hall.
  rewrite Forall_forall in Hall. destruct (Hall p Hp) as (k & Hk & _).
  assert (categoryKey p = Normal (lit "Other")) as Hkey.
  { unfold categoryKey, get in *. destruct (isNullish p); [done|].
    simpl. unfold or_else. by rewrite Hcat. }
  assert (keyed (lit "Other") p = true) as Hkeyed
    by (rewrite (keyed_Normal _ _ _ Hkey); by apply bool_decide_eq_true_2).
  apply groupByCategory_Normal in Hgroups as ->.
  eexists. split; [apply (groupsInFixedOrder_group ps p (lit "Other")); [done..|]|].
  - set_solver.
  - split; [reflexivity|]. simpl. by apply rowsFor_elem.
Qed.

Lemma missing_category_under_other_witness :
  let p := JObj [(lit "code", JStr (lit "X1")); (lit "category", JNull)] in
  emitted_under (lit "OTHER") p
    [ {| category_name := lit "KITCHEN"; products := [productRow (product "Kitchen" "K1")] |};
      {| category_name := lit "OTHER"; products := [productRow p] |} ].
Proof.
  intros p.
  apply (missing_category_under_other [p; product "Kitchen" "K1"]); [reflexivity| |reflexivity].
  set_solver.
Defined.

(** The headings of the emitted groups are distinct and taken from the
    seven names in capitals, so there are at most seven groups, and no
    group is empty. *)
Theorem groups_are_few_and_full (ps : list JSValue) (groups : list CategoryGroup) :
  groupByCategory ps = Normal groups →
  NoDup (category_name <$> groups) ∧
  category_name <$> groups ⊆ toUpperCase <$> categoryOrder ∧
  (length groups ≤ 7)%nat ∧
  Forall (λ g, products g ≠ []) groups.
Proof.
  intros Hgroups. apply groupByCategory_Normal in Hgroups as ->.
  pose proof (groupsInFixedOrder_names ps) as Hsub.
  split; [|split; [|split]].
  - eapply sublist_NoDup; [|exact Hsub].
    apply (bool_decide_unpack _). vm_compute. reflexivity.
  - by apply sublist_subseteq.
  - apply sublist_length in Hsub. by rewrite !length_fmap in Hsub.
  - apply Forall_forall. intros g. apply groupsInFixedOrder_nonempty.
Qed.

Lemma groups_are_few_and_full_witness :
  NoDup [lit "KITCHEN"; lit "BATHROOM"].
Proof.
  destruct (groups_are_few_and_full
              [product "Bathroom" "B1"; product "Kitchen" "K1"; product "Bathroom" "B2"]
              [ {| category_name := lit "KITCHEN";
                   products := [productRow (product "Kitchen" "K1")] |};
                {| category_name := lit "BATHROOM";
                   products := [productRow (product "Bathroom" "B1");
                                productRow (product "Bathroom" "B2")] |} ])
    as (Hnodup & _); [reflexivity|exact Hnodup].
Defined.

(** *** No row is lost or doubled *)

Lemma keyed_unique c c' p : keyed c p = true → keyed c' p = true → c = c'.
Proof.
  unfold keyed. destruct (categoryKey p); [|done..].
  intros H1%bool_decide_eq_true H2%bool_decide_eq_true. congruence.
Qed.

Lemma concat_keyed_single (cats : list jsstring) p (x : ProductRow) :
  NoDup cats →
  concat ((λ c, if keyed c p then [x] else []) <$> cats)
  = if existsb (λ c, keyed c p) cats then [x] else [].
Proof.
  induction 1 as [|c cats Hc Hcats IH]; [done|]. csimpl.
  destruct (keyed c p) eqn:Hkey; csimpl; [|done].
  rewrite IH. destruct (existsb _ cats) eqn:Hex; [|done].
  apply existsb_exists in Hex as (c' & Hc' & Hkey').
  destruct Hc. rewrite (keyed_unique c c' p Hkey Hkey'). by apply list_elem_of_In.
Qed.

Lemma concat_fmap_app {A B} (f g : A → list B) (l : list A) :
  concat ((λ x, f x ++ g x) <$> l) ≡ₚ concat (f <$> l) ++ concat (g <$> l).
Proof.
  induction l as [|x l IH]; [done|]. csimpl. rewrite IH.
  rewrite <- !app_assoc. f_equiv. rewrite !app_assoc. f_equiv.
  apply Permutation_app_comm.
Qed.

Lemma concat_rowsFor (cats : list jsstring) ps :
  NoDup cats →
  concat ((λ c, rowsFor c ps) <$> cats)
  ≡ₚ productRow <$> List.filter (λ p, existsb (λ c, keyed c p) cats) ps.
Proof.
  intros Hcats. induction ps as [|p ps IH].
  - csimpl. induction cats as [|c cats IHc]; [done|].
    csimpl. apply IHc. by apply NoDup_cons in Hcats as [_ ?].
  - erewrite (list_fmap_ext _ (λ c, (if keyed c p then [productRow p] else [])
                                    ++ rowsFor c ps)); [|intros; apply rowsFor_cons].
    rewrite concat_fmap_app, IH, (concat_keyed_single cats p _ Hcats). csimpl.
    by destruct (existsb _ cats).
Qed.

Lemma concat_nonempty_only (cats : list jsstring) ps :
  concat ((λ c, rowsFor c ps) <$> List.filter (λ c, existsb (keyed c) ps) cats)
  = concat ((λ c, rowsFor c ps) <$> cats).
Proof.
  induction cats as [|c cats IH]; [done|]. csimpl.
  destruct (existsb (keyed c) ps) eqn:Hex; csimpl; [by rewrite IH|].
  rewrite IH, existsb_keyed in *. apply bool_decide_eq_false in Hex.
  destruct (rowsFor c ps); [done|]. simpl in Hex. lia.
Qed.

Lemma groupsInFixedOrder_rows ps :
  concat (products <$> groupsInFixedOrder ps) ≡ₚ productRow <$> List.filter listed ps.
Proof.
  unfold groupsInFixedOrder, listed.
  rewrite <- list_fmap_compose.
  change (products ∘ _) with (λ c, rowsFor c ps).
  rewrite concat_nonempty_only. apply concat_rowsFor.
  apply (bool_decide_unpack _). vm_compute. reflexivity.
Qed.

(** The rows of all emitted groups together are the rows of the products
    whose category key is listed, each exactly once: no such product is
    lost or doubled, and no other product gets a row. *)
Theorem emitted_rows_are_the_listed_products (ps : list JSValue)
    (groups : list CategoryGroup) :
  groupByCategory ps = Normal groups →
  concat (products <$> groups) ≡ₚ productRow <$> List.filter listed ps.
Proof.
  intros Hgroups. apply groupByCategory_Normal in Hgroups as ->.
  apply groupsInFixedOrder_rows.
Qed.

Lemma emitted_rows_are_the_listed_products_witness :
  let b1 := product "Bathroom" "B1" in
  let u1 := product "Unknown" "U1" in
  let k1 := product "Kitchen" "K1" in
  [productRow k1; productRow b1] ≡ₚ [productRow b1; productRow k1].
Proof.
  intros b1 u1 k1.
  apply (emitted_rows_are_the_listed_products [b1; u1; k1]
           [ {| category_name := lit "KITCHEN"; products := [productRow k1] |};
             {| category_name := lit "BATHROOM"; products := [productRow b1] |} ]).
  reflexivity.
Defined.

(** ** The image test *)

(** The test for images stops at the first product with a truthy image:
    what comes after it, be it a null entry, is not read. *)
Theorem hasImages_stops_at_first (xs ys : list JSValue) (p : JSValue) :
  (∀ x, x ∈ xs → isNullish x = false) →
  isNullish p = false →
  toBoolean (prop p "image") = true →
  hasImages (xs ++ p :: ys) = Normal true.
Proof.
  intros Hxs Hp Himage. induction xs as [|x xs IH]; simpl.
  - unfold get. rewrite Hp. simpl. by rewrite Himage.
  - unfold get. rewrite (Hxs x) by set_solver. simpl.
    destruct (toBoolean (prop x "image")); [done|].
    apply IH. intros y Hy. apply Hxs. set_solver.
Qed.

Lemma hasImages_stops_at_first_witness :
  hasImages [product "Kitchen" "K1";
             JObj [(lit "image", JStr (lit "iVBORw0KGgo="))];
             JNull] = Normal true.
Proof.
  apply (hasImages_stops_at_first [product "Kitchen" "K1"] [JNull]
           (JObj [(lit "image", JStr (lit "iVBORw0KGgo="))])); [|reflexivity..].
  intros x Hx. apply list_elem_of_singleton in Hx as ->. reflexivity.
Defined.

(** ** The attachment name *)

Lemma replaceWhiteSpaceFrom_clean in_run s :
  Forall (λ c, isWhiteSpace c = false) (replaceWhiteSpaceFrom in_run s).
Proof.
  revert in_run. induction s as [|c s IH]; intros in_run; simpl; [constructor|].
  destruct (isWhiteSpace c) eqn:Hc.
  - destruct in_run; simpl; [apply IH|]. constructor; [reflexivity|apply IH].
  - constructor; [done|apply IH].
Qed.

Lemma replaceWhiteSpaceFrom_id in_run s :
  Forall (λ c, isWhiteSpace c = false) s → replaceWhiteSpaceFrom in_run s = s.
Proof.
  intros Hs. revert in_run. induction Hs as [|c s Hc Hs IH]; intros in_run; simpl; [done|].
  by rewrite Hc, IH.
Qed.

Lemma replaceWhiteSpaceFrom_length in_run s :
  (length (replaceWhiteSpaceFrom in_run s) ≤ length s)%nat.
Proof.
  revert in_run. induction s as [|c s IH]; intros in_run; simpl; [done|].
  destruct (isWhiteSpace c).
  - destruct in_run; simpl; [specialize (IH true); lia|].
    specialize (IH true). lia.
  - simpl. specialize (IH false). lia.
Qed.

(** The rewritten address holds no white space and is never longer than
    the address; an address without white space is used as it is, so
    rewriting twice changes nothing more. *)
Theorem rewritten_address_is_clean (s : jsstring) :
  Forall (λ c, isWhiteSpace c = false) (replaceWhiteSpace s) ∧
  (length (replaceWhiteSpace s) ≤ length s)%nat ∧
  (Forall (λ c, isWhiteSpace c = false) s → replaceWhiteSpace s = s) ∧
  replaceWhiteSpace (replaceWhiteSpace s) = replaceWhiteSpace s.
Proof.
  unfold replaceWhiteSpace. split; [apply replaceWhiteSpaceFrom_clean|].
  split; [apply replaceWhiteSpaceFrom_length|].
  split; [apply replaceWhiteSpaceFrom_id|].
  apply replaceWhiteSpaceFrom_id, replaceWhiteSpaceFrom_clean.
Qed.

Lemma singleSpaces_replace in_run s :
  singleSpacesFrom in_run s = true →
  replaceWhiteSpaceFrom in_run s = spacesToUnderscores s.
Proof.
  revert in_run. induction s as [|c s IH]; intros in_run; simpl; [done|].
  destruct (isWhiteSpace c) eqn:Hc.
  - intros [[Hspace Hrun%negb_true_iff]%andb_true_iff Hs]%andb_true_iff.
    subst in_run. rewrite Hspace. simpl. f_equal. by apply IH.
  - intros Hs. destruct (c =? 32)%N eqn:Hspace.
    + apply N.eqb_eq in Hspace as ->. done.
    + f_equal. by apply IH.
Qed.

Lemma replace_singleSpaces in_run s :
  replaceWhiteSpaceFrom in_run s = spacesToUnderscores s →
  singleSpacesFrom in_run s = true.
Proof.
  revert in_run. induction s as [|c s IH]; intros in_run; simpl; [done|].
  destruct (isWhiteSpace c) eqn:Hc.
  - destruct in_run; simpl.
    + intros Heq. apply (f_equal length) in Heq.
      pose proof (replaceWhiteSpaceFrom_length true s) as Hlen.
      unfold spacesToUnderscores in Heq. simpl in Heq.
      rewrite length_fmap in Heq. lia.
    + intros [= Hhead Htail].
      destruct (c =? 32)%N eqn:Hspace; [by rewrite (IH true Htail)|].
      subst c. done.
  - intros [= _ Htail]. by apply IH.
Qed.

(** The file name is the address with each space replaced by an underscore
    exactly when all white space of the address is single spaces, none
    next to another. *)
Theorem one_underscore_per_space_iff (s : jsstring) :
  replaceWhiteSpace s = spacesToUnderscores s ↔ singleSpaces s = true.
Proof.
  split; [apply replace_singleSpaces | apply singleSpaces_replace].
Qed.

(** ** The client fields of the merge data *)

Lemma prepare_Normal_data (w : World) req a doc data :
  prepare w req = Normal (a, doc, data) →
  a = prop (requestBody req) "address" ∧
  ∃ d groups,
    data = {| address := prop (requestBody req) "address";
              date := d;
              contact_name := or_else (prop (requestBody req) "contactName") (JStr []);
              company := or_else (prop (requestBody req) "company") (JStr []);
              phone_number := or_else (prop (requestBody req) "phoneNumber") (JStr []);
              email := or_else (prop (requestBody req) "email") (JStr []);
              categories := groups |}.
Proof.
  unfold prepare. cbv zeta.
  destruct (toBoolean (prop (requestBody req) "address")); [|done].
  cbn [negb].
  match goal with |- context [if ?c then _ else _] => destruct c end; [done|].
  intros H.
  apply bind_Normal in H as (_ & _ & H).
  apply bind_Normal in H as (templatePath & _ & H).
  apply bind_Normal in H as (content & _ & H).
  apply bind_Normal in H as (zip & _ & H).
  apply bind_Normal in H as (d & _ & H).
  apply bind_Normal in H as (has_images & _ & H).
  apply bind_Normal in H as (doc' & _ & H).
  apply bind_Normal in H as (gs & _ & H). cbv zeta in H.
  apply bind_Normal in H as (doc'' & _ & H).
  simplify_eq. eauto.
Qed.

(** In the data given to the engine the address is the one of the
    request, unchanged, and each of contact name, company, phone number
    and email is the request's value when that is truthy and the empty
    string when it is absent or falsy. *)
Theorem client_fields_default_to_empty (w : World) (req : Request)
    (a : JSValue) (doc : Doc w) (data : MergeData) :
  prepare w req = Normal (a, doc, data) →
  let field name out :=
    (toBoolean (prop (requestBody req) name) = true →
       out = prop (requestBody req) name) ∧
    (toBoolean (prop (requestBody req) name) = false → out = JStr []) in
  address data = prop (requestBody req) "address" ∧
  field "contactName" (contact_name data) ∧
  field "company" (company data) ∧
  field "phoneNumber" (phone_number data) ∧
  field "email" (email data).
Proof.
  intros Hprepare.
  apply prepare_Normal_data in Hprepare as (_ & d & groups & ->). simpl.
  unfold or_else.
  repeat split; intros H; by rewrite H.
Qed.

Lemma client_fields_default_to_empty_witness :
  ∃ data,
    company data = JStr (lit "Acme") ∧ email data = JStr [] ∧
    address data = JStr (lit "12 Smith St").
Proof.
  set (req := post [(lit "address", JStr (lit "12 Smith St"));
                    (lit "company", JStr (lit "Acme"));
                    (lit "email", JNull);
                    (lit "products", JArr [product "Kitchen" "K1"])]).
  destruct (prepare sampleWorld req) as [[[a doc] data]| |] eqn:Hprepare;
    [|vm_compute in Hprepare; discriminate..].
  destruct (client_fields_default_to_empty sampleWorld req a doc data Hprepare)
    as (Haddress & _ & [Hcompany _] & _ & [_ Hemail]).
  exists data. split; [by apply Hcompany|]. split; [by apply Hemail|exact Haddress].
Defined.

(** * The form and the handler together *)

(** ** Trimming *)

Lemma trimStart_nil_iff s :
  trimStart s = [] ↔ Forall (λ c, isWhiteSpace c = true) s.
Proof.
  induction s as [|c s IH]; simpl; [by split; [constructor|]|].
  destruct (isWhiteSpace c) eqn:Hc.
  - rewrite IH. split; [by constructor|]. by intros [_ ?]%Forall_cons.
  - split; [done|]. intros [? _]%Forall_cons. congruence.
Qed.

Lemma trimStart_blank s :
  Forall (λ c, isWhiteSpace c = true) (trimStart s) → trimStart s = [].
Proof.
  induction s as [|c s IH]; simpl; [done|].
  destruct (isWhiteSpace c) eqn:Hc; [done|].
  intros [? _]%Forall_cons. congruence.
Qed.

(** Trimming leaves nothing exactly of the strings of white space. *)
Lemma trim_nil_iff s : trim s = [] ↔ Forall (λ c, isWhiteSpace c = true) s.
Proof.
  unfold trim. rewrite <- trimStart_nil_iff. split.
  - intros H. apply (f_equal reverse) in H. rewrite reverse_involutive in H.
    simpl in H. apply trimStart_nil_iff in H. rewrite Forall_reverse in H.
    by apply trimStart_blank.
  - intros ->. done.
Qed.

(** ** What the form posts *)

Lemma productJson_key p :
  categoryKey (App.productJson p) = Normal (App.label (App.category p)).
Proof. by destruct p as [? []]. Qed.

Lemma label_listed c : App.label c ∈ categoryOrder.
Proof. destruct c; set_solver. Qed.

Lemma label_inj c c' : App.label c = App.label c' → c = c'.
Proof. by destruct c, c'. Qed.

Lemma productJson_groupable p : groupable (App.productJson p).
Proof.
  exists (App.label (App.category p)). split; [apply productJson_key|].
  apply categoryOrder_not_inherited, label_listed.
Qed.

Lemma productJson_keyed c p :
  keyed (App.label c) (App.productJson p) = bool_decide (App.category p = c).
Proof.
  rewrite (keyed_Normal _ _ _ (productJson_key p)).
  apply bool_decide_ext. split; [apply label_inj|by intros ->].
Qed.

Lemma filter_fmap {A B} (f : A → B) (P : B → bool) (l : list A) :
  List.filter P (f <$> l) = f <$> List.filter (λ x, P (f x)) l.
Proof.
  induction l as [|x l IH]; [done|]. csimpl.
  destruct (P (f x)); csimpl; by rewrite IH.
Qed.

Lemma filter_ext_bool {A} (P Q : A → bool) (l : list A) :
  (∀ x, P x = Q x) → List.filter P l = List.filter Q l.
Proof. intros H. induction l as [|x l IH]; [done|]. simpl. by rewrite H, IH. Qed.

Lemma rowsFor_productJson c ps :
  rowsFor (App.label c) (App.productJson <$> ps)
  = productRow <$> (App.productJson
                      <$> List.filter (λ p, bool_decide (App.category p = c)) ps).
Proof.
  unfold rowsFor. rewrite filter_fmap. do 2 f_equal.
  apply filter_ext_bool. intros p. apply productJson_keyed.
Qed.

Lemma groupsInFixedOrder_productJson (ps : list App.Product) :
  groupsInFixedOrder (App.productJson <$> ps)
  = summaryGroup <$> App.productsByCategory ps.
Proof.
  unfold groupsInFixedOrder, App.productsByCategory.
  change categoryOrder with (App.label <$> App.CATEGORIES).
  rewrite filter_fmap, <- !list_fmap_compose.
  erewrite (filter_ext_bool _ _ App.CATEGORIES).
  - apply list_fmap_ext. intros _ c _. unfold summaryGroup. simpl.
    f_equal. apply rowsFor_productJson.
  - intros c. simpl. by rewrite existsb_keyed, rowsFor_productJson, !length_fmap.
Qed.

(** The groups the handler emits for a posted form are those the form's
    own summary computation gives for the products that were posted, the
    ones with a code or a description: the same categories in the same
    order with the same products in the same order, the headings in
    capitals.  The summary shown under the form is computed from all
    products; it is the same when no product is left blank. *)
Theorem groups_match_the_summary (f : App.Form) (req : Request) :
  App.generateDocument f = App.Posted req →
  groupByCategory (elements (prop (requestBody req) "products"))
  = Normal (summaryGroup
              <$> App.productsByCategory (List.filter App.isValid (App.products f))) ∧
  (Forall (λ p, App.isValid p = true) (App.products f) →
   App.productsByCategory (List.filter App.isValid (App.products f))
   = App.productsByCategory (App.products f)).
Proof.
  unfold App.generateDocument. case_bool_decide as Haddr; [done|].
  cbv zeta. case_bool_decide as Hvalid; [done|]. intros [= <-].
  split.
  - change (elements (prop (requestBody _) "products"))
      with (App.productJson <$> List.filter App.isValid (App.products f)).
    rewrite groupByCategory_groupable
      by (apply Forall_fmap, Forall_forall; intros p _; apply productJson_groupable).
    f_equal. apply groupsInFixedOrder_productJson.
  - intros Hall. clear Hvalid.
    assert (List.filter App.isValid (App.products f) = App.products f) as ->; [|done].
    induction Hall as [|p ps Hp Hps IH]; [done|].
    cbn [List.filter]. rewrite Hp. by f_equal.
Qed.

Lemma groups_match_the_summary_witness :
  groupByCategory
    [App.productJson (App.with_change (App.emptyProduct (lit "id-1"))
                        (App.SetCode (lit "B1")))]
  = Normal
      [ {| category_name := lit "BATHROOM";
           products :=
             [productRow
                (App.productJson (App.with_change (App.emptyProduct (lit "id-1"))
                                    (App.SetCode (lit "B1"))))] |} ].
Proof.
  exact (proj1 (groups_match_the_summary sampleForm _ eq_refl)).
Defined.

(** ** Requests that succeed *)

Lemma produce_served (w : World) req s ps buf :
  prop (requestBody req) "address" = JStr s → s ≠ [] →
  prop (requestBody req) "products" = JArr ps → ps ≠ [] →
  Forall groupable ps →
  served w req (existsb (λ p, toBoolean (prop p "image")) ps)
    (groupsInFixedOrder ps) buf →
  produce w req = Normal (JStr s, buf).
Proof.
  intros Haddr Hs Hproducts Hps Hgroupable
    (Himport & path & content & zip & d & doc & doc' & merged
     & Hpath & Hread & Hzip & Hdate & Hdoc & Hset & Hrender & Hgen).
  assert (toBoolean (prop (requestBody req) "address") = true) as Htruthy.
  { rewrite Haddr. simpl. by rewrite bool_decide_eq_false_2. }
  assert (productsMissing (prop (requestBody req) "products") = false) as Hvalid.
  { rewrite Hproducts. by destruct ps. }
  unfold produce.
  rewrite (prepare_valid_unfold w req Htruthy Hvalid Himport).
  rewrite Hpath. simpl. rewrite Hread. simpl. rewrite Hzip. simpl.
  rewrite Hdate. simpl. rewrite Hproducts. simpl.
  rewrite hasImages_existsb.
  2:{ intros p Hp. rewrite Forall_forall in Hgroupable.
      destruct (isNullish p) eqn:Hnull; [|done].
      by destruct (nullish_not_groupable p Hnull (Hgroupable p Hp)). }
  simpl. rewrite Hdoc. simpl.
  rewrite (groupByCategory_groupable ps Hgroupable). simpl.
  unfold mergeDataOf in Hset. rewrite Hset. simpl.
  unfold renderDocument. rewrite Hrender. simpl. rewrite Hgen. simpl.
  by rewrite Haddr.
Qed.

(** A POST request with a non-empty string address and a non-empty array
    of groupable products is answered 200 with the serialised document,
    the attachment named after the rewritten address, whenever the
    collaborators serve it (with the engine options for its images and
    with its groups in the fixed order) and the rewritten address holds
    only code units a header value may hold. *)
Theorem valid_request_succeeds (w : World) (req : Request) (s : jsstring)
    (ps : list JSValue) (buf : Buffer) :
  method req = lit "POST" →
  prop (requestBody req) "address" = JStr s → s ≠ [] →
  prop (requestBody req) "products" = JArr ps → ps ≠ [] →
  Forall groupable ps →
  forallb validHeaderChar (replaceWhiteSpace s) = true →
  served w req (existsb (λ p, toBoolean (prop p "image")) ps)
    (groupsInFixedOrder ps) buf →
  handler w req =
    respond 200 [content_type; content_disposition (replaceWhiteSpace s)] (Send buf).
Proof.
  intros Hpost Haddr Hs Hproducts Hps Hgroupable Hheader Hserved.
  rewrite (handler_POST w req Hpost).
  rewrite (produce_served w req s ps buf Haddr Hs Hproducts Hps Hgroupable Hserved).
  by rewrite deliver_string, Hheader.
Qed.

Lemma valid_request_succeeds_witness :
  handler sampleWorld
    (post [(lit "address", JStr (lit "12 Smith St"));
           (lit "products", JArr [product "Kitchen" "K1"])])
  = respond 200 [content_type; content_disposition (lit "12_Smith_St")]
      (Send [80; 75; 5; 6]%N).
Proof.
  apply (valid_request_succeeds sampleWorld _ (lit "12 Smith St")
           [product "Kitchen" "K1"]).
  - reflexivity.
  - reflexivity.
  - discriminate.
  - reflexivity.
  - discriminate.
  - repeat constructor. apply (groupable_object _). simpl.
    apply (bool_decide_unpack _). vm_compute. reflexivity.
  - reflexivity.
  - split; [reflexivity|].
    exists InTemplatesDir, [80; 75; 3; 4]%N, [80; 75; 3; 4]%N, (lit "2 November 2026"),
      (), (), ().
    repeat split.
Defined.

Lemma generateDocument_Posted f req :
  App.generateDocument f = App.Posted req →
  ¬ blank (App.address f) ∧
  List.filter App.isValid (App.products f) ≠ [] ∧
  req = {| method := lit "POST";
           req_body := App.payload f (List.filter App.isValid (App.products f)) |}.
Proof.
  unfold App.generateDocument. case_bool_decide as Haddr; [done|].
  cbv zeta. case_bool_decide as Hvalid; [done|]. intros [= <-].
  split; [by rewrite <- trim_nil_iff|]. split; [|done].
  intros Hnil. by rewrite Hnil in Hvalid.
Qed.

(** Whatever the form posts passes the handler's validation and
    grouping: the answer is 200 with the serialised document, the
    attachment named after the trimmed and rewritten address, whenever the
    collaborators serve the request (with the engine options for the
    posted images and with the summary groups of the posted products) and
    that address holds only code units a header value may hold. *)
Theorem posted_form_succeeds (w : World) (f : App.Form) (req : Request)
    (buf : Buffer) :
  App.generateDocument f = App.Posted req →
  forallb validHeaderChar (replaceWhiteSpace (trim (App.address f))) = true →
  served w req
    (existsb (λ p, toBoolean (prop p "image"))
       (App.productJson <$> List.filter App.isValid (App.products f)))
    (summaryGroup
       <$> App.productsByCategory (List.filter App.isValid (App.products f)))
    buf →
  handler w req =
    respond 200
      [content_type; content_disposition (replaceWhiteSpace (trim (App.address f)))]
      (Send buf).
Proof.
  intros (Haddr & Hvalid & ->)%generateDocument_Posted Hheader Hserved.
  rewrite <- groupsInFixedOrder_productJson in Hserved.
  rewrite handler_POST by reflexivity.
  rewrite (produce_served w _ (trim (App.address f))
             (App.productJson <$> List.filter App.isValid (App.products f)) buf);
    try done.
  - by rewrite deliver_string, Hheader.
  - by rewrite trim_nil_iff.
  - by intros ?%fmap_nil_inv.
  - apply Forall_fmap, Forall_forall. intros p _. apply productJson_groupable.
Qed.

Lemma posted_form_succeeds_witness :
  handler sampleWorld
    {| method := lit "POST";
       req_body := App.payload sampleForm (List.filter App.isValid (App.products sampleForm)) |}
  = respond 200 [content_type; content_disposition (lit "12_Smith_St")]
      (Send [80; 75; 5; 6]%N).
Proof.
  apply (posted_form_succeeds sampleWorld sampleForm).
  - reflexivity.
  - reflexivity.
  - split; [reflexivity|].
    exists InTemplatesDir, [80; 75; 3; 4]%N, [80; 75; 3; 4]%N, (lit "4 March 2025"),
      (), (), ().
    repeat split.
Defined.

(** The form posts a request exactly when its address is not blank and
    some product has a code or a description that is not blank. *)
Theorem form_is_posted_iff (f : App.Form) :
  (∃ req, App.generateDocument f = App.Posted req) ↔
  ¬ blank (App.address f) ∧
  ∃ p, p ∈ App.products f ∧ (¬ blank (App.code p) ∨ ¬ blank (App.description p)).
Proof.
  assert (∀ p, App.isValid p = true ↔
               ¬ blank (App.code p) ∨ ¬ blank (App.description p)) as Hvalid.
  { intros p. unfold App.isValid, blank.
    rewrite orb_true_iff, !negb_true_iff, !bool_decide_eq_false, !trim_nil_iff.
    done. }
  split.
  - intros [req (Haddr & Hsome & _)%generateDocument_Posted]. split; [done|].
    destruct (List.filter App.isValid (App.products f)) as [|p ps] eqn:Hfilter; [done|].
    assert (In p (List.filter App.isValid (App.products f))) as Hp
      by (rewrite Hfilter; by left).
    apply List.filter_In in Hp as [Hp Hok]. exists p.
    split; [by apply list_elem_of_In|by apply Hvalid].
  - intros (Haddr & p & Hp & Hok). unfold App.generateDocument.
    rewrite bool_decide_eq_false_2 by (by rewrite trim_nil_iff). cbv zeta.
    rewrite bool_decide_eq_false_2; [eauto|].
    intros Hlen. apply nil_length_inv in Hlen.
    assert (In p (List.filter App.isValid (App.products f))) as Hin
      by (apply List.filter_In; split; [by apply list_elem_of_In|by apply Hvalid]).
    by rewrite Hlen in Hin.
Qed.

(** ** Editing the product list *)

Lemma with_change_id p ch : App.id (App.with_change p ch) = App.id p.
Proof. by destruct p, ch. Qed.

Lemma updateProduct_ids ps i ch :
  App.id <$> App.updateProduct ps i ch = App.id <$> ps.
Proof.
  unfold App.updateProduct. rewrite <- list_fmap_compose.
  apply list_fmap_ext. intros _ p _. simpl.
  case_bool_decide; [apply with_change_id|done].
Qed.

Lemma filter_other_ids ps i :
  i ∉ App.id <$> ps →
  List.filter (λ p, negb (bool_decide (App.id p = i))) ps = ps.
Proof.
  induction ps as [|p ps IH]; [done|]. csimpl.
  intros [Hp Hps]%not_elem_of_cons.
  rewrite bool_decide_eq_false_2 by done. simpl. by rewrite IH.
Qed.

Lemma removeProduct_length ps i :
  NoDup (App.id <$> ps) →
  (length ps ≤ S (length (List.filter (λ p, negb (bool_decide (App.id p = i))) ps)))%nat.
Proof.
  induction ps as [|p ps IH]; [simpl; lia|]. csimpl.
  intros [Hp Hps]%NoDup_cons. case_bool_decide as Hid; simpl.
  - subst i. rewrite filter_other_ids by done. lia.
  - specialize (IH Hps). lia.
Qed.

(** The handlers of the product list keep it well formed: the identifiers
    stay distinct and there are always between one and fifty products,
    provided a new product gets an identifier that is not in use. *)
Theorem product_list_stays_well_formed (ps : list App.Product)
    (i uuid : jsstring) (ch : App.Change) :
  wellFormed ps →
  uuid ∉ App.id <$> ps →
  wellFormed (App.after ps (App.addProduct ps uuid)) ∧
  wellFormed (App.after ps (App.removeProduct ps i)) ∧
  wellFormed (App.updateProduct ps i ch) ∧
  wellFormed (App.removeImage ps i).
Proof.
  intros [Hids [Hmin Hmax]] Hfresh.
  assert (∀ ch', wellFormed (App.updateProduct ps i ch')) as Hupdate.
  { intros ch'. split; [by rewrite updateProduct_ids|].
    unfold App.updateProduct. by rewrite length_fmap. }
  split; [|split; [|split]]; [| |apply Hupdate..].
  - unfold App.addProduct. case_bool_decide; simpl; [done|].
    split.
    + rewrite fmap_app. apply NoDup_app. split; [done|].
      split; [|apply NoDup_singleton].
      intros x Hx Hnew. apply list_elem_of_singleton in Hnew as ->. done.
    + rewrite length_app. simpl. lia.
  - unfold App.removeProduct. case_bool_decide; simpl; [done|].
    split.
    + eapply sublist_NoDup; [exact Hids|].
      apply fmap_sublist, filter_sublist.
    + pose proof (removeProduct_length ps i Hids) as Hlen.
      pose proof (sublist_length _ _ (filter_sublist
        (λ p, negb (bool_decide (App.id p = i))) ps)) as Hle.
      lia.
Qed.

Lemma product_list_stays_well_formed_witness :
  wellFormed (App.products sampleForm ++ [App.emptyProduct (lit "id-3")]) ∧
  wellFormed [App.with_change (App.emptyProduct (lit "id-1")) (App.SetCode (lit "B1"))].
Proof.
  destruct (product_list_stays_well_formed (App.products sampleForm)
              (lit "id-2") (lit "id-3") (App.SetNotes []))
    as (Hadd & Hremove & _).
  - split; [|simpl; lia].
    apply (bool_decide_unpack _). vm_compute. reflexivity.
  - apply (bool_decide_unpack _). vm_compute. reflexivity.
  - split; [exact Hadd|exact Hremove].
Defined.

(** ** The cross on an image preview *)

Lemma with_change_preview_json p :
  App.productJson (App.with_change p (App.SetImagePreview None)) = App.productJson p.
Proof. by destruct p. Qed.

Lemma with_change_preview_valid p :
  App.isValid (App.with_change p (App.SetImagePreview None)) = App.isValid p.
Proof. by destruct p. Qed.

(** The click on the cross of an image preview takes the preview away and
    leaves the image itself in the product, so the form posts the same
    request as before the click, image included. *)
Theorem removing_the_preview_keeps_the_image (f : App.Form) (i : jsstring) :
  App.image <$> App.removeImage (App.products f) i = App.image <$> App.products f ∧
  (∀ p, p ∈ App.removeImage (App.products f) i → App.id p = i →
        App.imagePreview p = None) ∧
  App.generateDocument (withProducts f (App.removeImage (App.products f) i))
  = App.generateDocument f.
Proof.
  assert (App.removeImage (App.products f) i
          = App.updateProduct (App.products f) i (App.SetImagePreview None)) as ->
    by done.
  split; [|split].
  - unfold App.updateProduct. rewrite <- list_fmap_compose.
    apply list_fmap_ext. intros _ p _. simpl. case_bool_decide; by destruct p.
  - intros p (q & -> & Hq)%list_elem_of_fmap. case_bool_decide; [by destruct q|done].
  - assert (List.filter App.isValid
              (App.updateProduct (App.products f) i (App.SetImagePreview None))
            = App.updateProduct (List.filter App.isValid (App.products f)) i
                (App.SetImagePreview None)) as Hfilter.
    { unfold App.updateProduct. rewrite filter_fmap. f_equal.
      apply filter_ext_bool. intros p.
      case_bool_decide; [apply with_change_preview_valid|done]. }
    assert (∀ ps, App.productJson <$> App.updateProduct ps i (App.SetImagePreview None)
                  = App.productJson <$> ps) as Hjson.
    { intros ps. unfold App.updateProduct. rewrite <- list_fmap_compose.
      apply list_fmap_ext. intros _ p _. simpl.
      case_bool_decide; [apply with_change_preview_json|done]. }
    unfold App.generateDocument, withProducts, App.payload. simpl.
    rewrite Hfilter, Hjson.
    unfold App.updateProduct. by rewrite length_fmap.
Qed.

(** ** Every posted product reaches the document *)


Lemma productJson_listed p : listed (App.productJson p) = true.
Proof.
  unfold listed. apply existsb_exists. exists (App.label (App.category p)).
  split; [apply list_elem_of_In, label_listed|].
  rewrite productJson_keyed. by apply bool_decide_eq_true_2.
Qed.

Lemma filter_all {A} (P : A → bool) (l : list A) :
  (∀ x, P x = true) → List.filter P l = l.
Proof. intros H. induction l as [|x l IH]; [done|]. simpl. by rewrite H, IH. Qed.

(** For a request the form posts the grouping completes, and the rows of
    the emitted groups are the rows of the posted products, each exactly
    once: none of them is dropped. *)
Theorem every_posted_product_gets_one_row (f : App.Form) (req : Request) :
  App.generateDocument f = App.Posted req →
  ∃ groups,
    groupByCategory (elements (prop (requestBody req) "products")) = Normal groups ∧
    concat (products <$> groups)
    ≡ₚ productRow <$> (App.productJson <$> List.filter App.isValid (App.products f)).
Proof.
  intros (_ & _ & ->)%generateDocument_Posted.
  change (elements (prop (requestBody _) "products"))
    with (App.productJson <$> List.filter App.isValid (App.products f)).
  eexists. split.
  - apply groupByCategory_groupable, Forall_fmap, Forall_forall.
    intros p _. apply productJson_groupable.
  - rewrite groupsInFixedOrder_rows.
    rewrite filter_fmap, filter_all; [done|]. intros p. apply productJson_listed.
Qed.

Lemma every_posted_product_gets_one_row_witness :
  ∃ groups,
    groupByCategory
      [App.productJson (App.with_change (App.emptyProduct (lit "id-1"))
                          (App.SetCode (lit "B1")))]
    = Normal groups ∧
    length (concat (products <$> groups)) = 1%nat.
Proof.
  destruct (every_posted_product_gets_one_row sampleForm _ eq_refl)
    as (groups & Hgroups & Hrows).
  exists groups. split; [exact Hgroups|].
  by rewrite Hrows.
Defined.

(** ** The error texts *)

Ltac known_text := apply (bool_decide_unpack _); vm_compute; reflexivity.

Ltac known_here :=
  eexists _, _; split; [reflexivity|]; split; [known_text|];
  split; (let H := fresh in
          intros H;
          first [done | discriminate H | exfalso; revert H; known_text | known_text]).

Ltac known_failure := unfold fail; intros [= <-]; simpl; known_here.

Lemma prepare_Return_known (w : World) req r :
  prepare w req = Return r → known_error r.
Proof.
  unfold prepare, known_error. cbv zeta.
  destruct (toBoolean (prop (requestBody req) "address")); [|known_failure].
  cbn [negb].
  match goal with |- context [if ?c then _ else _] => destruct c end;
    [known_failure|].
  pose proof (formattedDate_no_Return w (prop (requestBody req) "date")) as Hdate.
  pose proof (hasImages_no_Return (elements (prop (requestBody req) "products")))
    as Himages.
  pose proof (groupByCategory_no_Return
                (elements (prop (requestBody req) "products"))) as Hgroups.
  unfold locateTemplate.
  destruct (import_modules w); simpl; [done|].
  destruct (existsSync w InTemplatesDir), (existsSync w InPublicDir); simpl;
    try known_failure;
    (destruct (readFileSync w _); simpl; [done|]);
    (destruct (PizZip_new w _); simpl; [known_failure|]);
    (destruct (formattedDate w _) as [?|r1|]; simpl;
       [|by destruct (Hdate r1)|done]);
    (destruct (hasImages _) as [?|r2|]; simpl;
       [|by destruct (Himages r2)|done]);
    (destruct (Docxtemplater_new w _ _); simpl; [known_failure|]);
    (destruct (groupByCategory _) as [?|r3|]; simpl;
       [|by destruct (Hgroups r3)|done]);
    by destruct (setData w _ _).
Qed.

Lemma handler_known (w : World) req :
  known_error (handler w req) ∨
  (∃ buf, body (handler w req) = Send buf) ∨ body (handler w req) = End.
Proof.
  unfold handler.
  case_bool_decide; [by right; right|].
  case_bool_decide; simpl; [|left; known_here].
  unfold produce.
  pose proof (prepare_Return_known w req) as Hprepare.
  destruct (prepare w req) as [[[a doc] data]|r|e]; simpl;
    [|left; by apply Hprepare|left; known_here].
  unfold renderDocument. destruct (render w doc) as [e|merged]; simpl.
  - left. destruct (properties_errors e); simpl; known_here.
  - destruct (generate w merged) as [e|buf]; simpl; [left; known_here|].
    destruct a as [| | | |s| |]; try (left; known_here; fail).
    rewrite deliver_string.
    destruct (forallb validHeaderChar (replaceWhiteSpace s));
      [right; left; eexists; reflexivity | left; known_here].
Qed.

(** The error of a JSON body is one of the nine texts of the handler, and
    it comes without details exactly when it is "Method not allowed", one
    of the two validation texts or "Template file not found". *)
Theorem error_texts_are_known (w : World) (req : Request)
    (error : jsstring) (details : option Message) :
  body (handler w req) = Json error details →
  error ∈ errorTexts ∧ (details = None ↔ error ∈ bareErrorTexts).
Proof.
  intros Hbody.
  destruct (handler_known w req) as [(e & d & He & Htext & Hdetails)|[[buf H]|H]];
    rewrite Hbody in *; [|done..].
  by simplify_eq.
Qed.

Lemma error_texts_are_known_witness :
  lit "Render failed" ∈ errorTexts.
Proof.
  apply (error_texts_are_known
           (worldWith (inl {| message := Text (lit "boom"); properties_errors := None |}))
           (post [(lit "address", JStr (lit "12 Smith St"));
                  (lit "products", JArr [product "Kitchen" "K1"])])
           _ (Some (Text (lit "boom")))).
  reflexivity.
Defined.
